(** * Drive sync: the App component of src/App.tsx

    A shallow embedding of the React component [App]: its state
    variables, its handlers, the async function [syncAndPoll] of the
    polling effect and [handleSearch], followed by the properties of
    the reconciliation cycle.

    Conventions.
    - A JavaScript string is a [string]; one [ascii] stands for one code
      unit below 256.
    - [Date.now()] and [crypto.randomUUID()] are inputs of the handler
      that calls them.
    - An async function is a [Task]: the state-setter calls it makes and
      the collaborator calls it awaits, each await carrying the
      continuation that receives how the promise settled.
    - A state-setter call updates the state when it is made; React
      applies the queued updates in the order of the calls. *)

From Stdlib Require Import String Ascii List Bool Arith NArith Lia.
From Stdlib Require Import DecimalString DecimalPos DecimalN Permutation.
Import ListNotations.
Open Scope string_scope.

(** ** JavaScript values used by the component *)

Module JS.

(** [!!s] for a string: only the empty string is falsy. *)
Definition truthy (s : string) : bool :=
  match s with
  | EmptyString => false
  | String _ _ => true
  end.

(** White space and line terminators of ECMAScript among the code
    units below 256: TAB, LF, VT, FF, CR, SP and NBSP. *)
Definition isWhiteSpace (a : ascii) : bool :=
  let n := N_of_ascii a in
  (N.leb 9 n && N.leb n 13) || N.eqb n 32 || N.eqb n 160.

Fixpoint trimStart (s : string) : string :=
  match s with
  | EmptyString => EmptyString
  | String a rest => if isWhiteSpace a then trimStart rest else s
  end.

Fixpoint trimEnd (s : string) : string :=
  match s with
  | EmptyString => EmptyString
  | String a rest =>
      match trimEnd rest with
      | EmptyString => if isWhiteSpace a then EmptyString else String a EmptyString
      | kept => String a kept
      end
  end.

(** [String.prototype.trim]. *)
Definition trim (s : string) : string := trimEnd (trimStart s).

(** [String(n)] for a non-negative integer below 10^21: its decimal
    digits. *)
Definition numberToString (n : N) : string :=
  NilZero.string_of_uint (N.to_uint n).

(** What a rejected promise carries: an [Error] object with its
    message, or any other value. *)
Inductive Thrown : Type :=
| ErrorObject (message : string)
| OtherValue.

(** How a promise settles. *)
Inductive Settled (A : Type) : Type :=
| Fulfilled (value : A)
| Rejected (reason : Thrown).

Arguments Fulfilled {A} value.
Arguments Rejected {A} reason.

End JS.

Import JS.

(** ** Data model *)

(** Modelled from the spec: [./types] is not part of the sources; a file
    status is one of pending, syncing, indexed, error. *)
Inductive FileStatus : Type := pending | syncing | indexed | error.

(** Modelled from the spec: the files returned by
    [googleDriveService.getFilesFromFolder] carry an id and a content. *)
Module DriveFile.
Record t : Type := mk { id : string; content : string }.
End DriveFile.

(** Modelled from the spec: a file of a client, the drive file's fields
    with a summary and a status. *)
Module SyncedFile.
Record t : Type := mk
  { id : string; content : string; summary : string; status : FileStatus }.
End SyncedFile.

(** The [Client] built by [handleAddClient]. *)
Module Client.
Record t : Type := mk
  { id : string;
    name : string;
    files : list SyncedFile.t;
    apiKey : string;
    googleDriveFolderUrl : option string }.

(** [{ ...c, files }] *)
Definition withFiles (c : t) (fs : list SyncedFile.t) : t :=
  mk (id c) (name c) fs (apiKey c) (googleDriveFolderUrl c).

(** [{ ...c, googleDriveFolderUrl: url }] *)
Definition withFolderUrl (c : t) (url : string) : t :=
  mk (id c) (name c) (files c) (apiKey c) (Some url).
End Client.

(** Anything with an [id] and a [content], which is all the change check
    reads of a file. *)
Class FileLike (A : Type) : Type :=
  { fileId : A -> string; fileContent : A -> string }.

#[export] Instance DriveFile_FileLike : FileLike DriveFile.t :=
  {| fileId := DriveFile.id; fileContent := DriveFile.content |}.

#[export] Instance SyncedFile_FileLike : FileLike SyncedFile.t :=
  {| fileId := SyncedFile.id; fileContent := SyncedFile.content |}.

(** The (id, content) pair of a file. *)
Definition idContent {A} `{FileLike A} (f : A) : string * string :=
  (fileId f, fileContent f).

(** [files.map(f => f.id + f.content).join('')] *)
Definition fingerprint {A} `{FileLike A} (fs : list A) : string :=
  String.concat "" (map (fun f => fileId f ++ fileContent f) fs).

(** [currentContent !== newContent] *)
Definition changeDetected {A B} `{FileLike A} `{FileLike B}
    (stored : list A) (remote : list B) : bool :=
  negb (String.eqb (fingerprint stored) (fingerprint remote)).

(** The id of [f] has [n] code units and its content [m]. *)
Definition hasWidth (n m : nat) {A} `{FileLike A} (f : A) : Prop :=
  String.length (fileId f) = n /\ String.length (fileContent f) = m.

(** [{...df, summary: '...', status: 'syncing'}] *)
Definition placeholder (df : DriveFile.t) : SyncedFile.t :=
  SyncedFile.mk (DriveFile.id df) (DriveFile.content df) "..." syncing.

(** ** Component state *)

Record AppState : Type := mkApp
  { clients : list Client.t;
    selectedClientId : option string;
    fileSearchApiKey : string;
    isGoogleDriveConnected : bool;
    isSyncing : bool;
    syncError : option string }.

Definition initialState : AppState :=
  mkApp [] None "" false false None.

Definition setClients (f : list Client.t -> list Client.t) (s : AppState) : AppState :=
  mkApp (f (clients s)) (selectedClientId s) (fileSearchApiKey s)
        (isGoogleDriveConnected s) (isSyncing s) (syncError s).

Definition setSelectedClientId (v : option string) (s : AppState) : AppState :=
  mkApp (clients s) v (fileSearchApiKey s)
        (isGoogleDriveConnected s) (isSyncing s) (syncError s).

Definition setFileSearchApiKey (v : string) (s : AppState) : AppState :=
  mkApp (clients s) (selectedClientId s) v
        (isGoogleDriveConnected s) (isSyncing s) (syncError s).

Definition setIsGoogleDriveConnected (v : bool) (s : AppState) : AppState :=
  mkApp (clients s) (selectedClientId s) (fileSearchApiKey s)
        v (isSyncing s) (syncError s).

Definition setIsSyncing (v : bool) (s : AppState) : AppState :=
  mkApp (clients s) (selectedClientId s) (fileSearchApiKey s)
        (isGoogleDriveConnected s) v (syncError s).

Definition setSyncError (v : option string) (s : AppState) : AppState :=
  mkApp (clients s) (selectedClientId s) (fileSearchApiKey s)
        (isGoogleDriveConnected s) (isSyncing s) v.

(** [clients.find(c => c.id === selectedClientId)] *)
Definition selectedClient (s : AppState) : option Client.t :=
  match selectedClientId s with
  | None => None
  | Some sel => find (fun c => String.eqb (Client.id c) sel) (clients s)
  end.

(** The values of one render that the closures [syncAndPoll] and
    [handleSearch] capture. *)
Record Render : Type := mkRender
  { r_selectedClient : option Client.t;
    r_isGoogleDriveConnected : bool;
    r_fileSearchApiKey : string }.

Definition render (s : AppState) : Render :=
  mkRender (selectedClient s) (isGoogleDriveConnected s) (fileSearchApiKey s).

(** ** Handlers *)

Definition handleAddClient (name : string) (now : N) (uuid : string)
    (s : AppState) : AppState :=
  if truthy (trim name) then
    let newClient :=
      Client.mk ("client_" ++ numberToString now) name [] ("key_" ++ uuid) None in
    setSelectedClientId (Some (Client.id newClient))
      (setClients (fun prev => (prev ++ [newClient])%list) s)
  else s.

Definition handleSelectClient (id : string) (s : AppState) : AppState :=
  setSelectedClientId (Some id) s.

Definition handleSetFolderUrl (clientId url : string) (s : AppState) : AppState :=
  setClients
    (map (fun c => if String.eqb (Client.id c) clientId
                   then Client.withFolderUrl c url else c)) s.

(** [handleConnectGoogleDrive], once [googleDriveService.connect()] has
    fulfilled with [success]. *)
Definition handleConnectGoogleDrive (success : bool) (s : AppState) : AppState :=
  setIsGoogleDriveConnected success s.

(** ** Async functions *)

Section Tasks.

(** The promise an async function returns fulfils with an [R]. *)
Variable R : Type.

Inductive Task : Type :=
| Return (r : Settled R)
| Update (f : AppState -> AppState) (next : Task)
| AwaitGetFilesFromFolder (folderUrl : string)
    (resume : Settled (list DriveFile.t) -> Task)
| AwaitSyncClientFiles (client : Client.t) (driveFiles : list DriveFile.t)
    (apiKey : string) (resume : Settled (list SyncedFile.t) -> Task)
| AwaitQuery (client : Client.t) (query apiKey : string)
    (resume : Settled string -> Task).

(** Runs the setter calls up to the next await or the return. *)
Fixpoint advance (t : Task) (s : AppState) : AppState * Task :=
  match t with
  | Update f next => advance next (f s)
  | _ => (s, t)
  end.

(** A whole run with nothing else happening in between: the drive
    listing settles as [fetched], the index sync as [synced], a query
    as [answered]. *)
Fixpoint complete (fetched : Settled (list DriveFile.t))
    (synced : Settled (list SyncedFile.t)) (answered : Settled string)
    (t : Task) (s : AppState) : AppState * Settled R :=
  match t with
  | Return r => (s, r)
  | Update f next => complete fetched synced answered next (f s)
  | AwaitGetFilesFromFolder _ resume =>
      complete fetched synced answered (resume fetched) s
  | AwaitSyncClientFiles _ _ _ resume =>
      complete fetched synced answered (resume synced) s
  | AwaitQuery _ _ _ resume =>
      complete fetched synced answered (resume answered) s
  end.

End Tasks.

Arguments Return {R} r.
Arguments Update {R} f next.
Arguments AwaitGetFilesFromFolder {R} folderUrl resume.
Arguments AwaitSyncClientFiles {R} client driveFiles apiKey resume.
Arguments AwaitQuery {R} client query apiKey resume.
Arguments advance {R} t s.
Arguments complete {R} fetched synced answered t s.

Notation "f ';;' t" := (Update f t) (at level 61, right associativity).

(** A task is either an update or a place where [advance] stops. *)
Definition stopped {R} (t : Task R) : Prop :=
  match t with
  | Update _ _ => False
  | _ => True
  end.

(** [error instanceof Error ? error.message : "An unknown error ..."] *)
Definition errorMessage (e : Thrown) : string :=
  match e with
  | ErrorObject message => message
  | OtherValue => "An unknown error occurred during sync."
  end.

(** The [finally] block of [syncAndPoll]. *)
Definition finallyBlock : Task unit :=
  setIsSyncing false ;; Return (Fulfilled tt).

(** The [catch] block of [syncAndPoll]. *)
Definition catchBlock (e : Thrown) : Task unit :=
  setSyncError (Some (errorMessage e)) ;; finallyBlock.

(** The first [setClients] of [syncAndPoll]: the optimistic replacement. *)
Definition markSyncing (sel : Client.t) (driveFiles : list DriveFile.t)
    (prev : list Client.t) : list Client.t :=
  map (fun c => if String.eqb (Client.id c) (Client.id sel)
                then Client.withFiles c (map placeholder driveFiles) else c) prev.

(** The second [setClients] of [syncAndPoll]: the commit. *)
Definition commitIndexed (sel : Client.t) (indexedFiles : list SyncedFile.t)
    (prev : list Client.t) : list Client.t :=
  map (fun c => if String.eqb (Client.id c) (Client.id sel)
                then Client.withFiles c indexedFiles else c) prev.

(** [syncAndPoll] after [await fileSearchService.syncClientFiles(...)]. *)
Definition afterSync (sel : Client.t) (synced : Settled (list SyncedFile.t))
    : Task unit :=
  match synced with
  | Fulfilled indexedFiles =>
      setClients (commitIndexed sel indexedFiles) ;; finallyBlock
  | Rejected e => catchBlock e
  end.

(** [syncAndPoll] after [await googleDriveService.getFilesFromFolder(...)]. *)
Definition afterFetch (sel : Client.t) (apiKey : string)
    (fetched : Settled (list DriveFile.t)) : Task unit :=
  match fetched with
  | Fulfilled driveFiles =>
      if changeDetected (Client.files sel) driveFiles then
        setClients (markSyncing sel driveFiles) ;;
        AwaitSyncClientFiles sel driveFiles apiKey (afterSync sel)
      else finallyBlock
  | Rejected e => catchBlock e
  end.

(** The guard of [syncAndPoll]: the selected client and its folder url
    when none of the four tests of the [if] holds. *)
Definition activation (r : Render) : option (Client.t * string) :=
  match r_selectedClient r with
  | None => None
  | Some sel =>
      match Client.googleDriveFolderUrl sel with
      | None => None
      | Some url =>
          if negb (truthy url)
             || negb (r_isGoogleDriveConnected r)
             || negb (truthy (trim (r_fileSearchApiKey r)))
          then None
          else Some (sel, url)
      end
  end.

Definition syncAndPoll (r : Render) : Task unit :=
  match activation r with
  | None => setIsSyncing false ;; Return (Fulfilled tt)
  | Some (sel, url) =>
      setIsSyncing true ;;
      setSyncError None ;;
      AwaitGetFilesFromFolder url (afterFetch sel (r_fileSearchApiKey r))
  end.

Definition handleSearch (r : Render) (query : string) : Task string :=
  match r_selectedClient r with
  | None => Return (Fulfilled "No client selected.")
  | Some sel =>
      AwaitQuery sel query (r_fileSearchApiKey r) (fun answer => Return answer)
  end.

(** ** The polling effect and the event loop

    The effect of the component depends on [selectedClient],
    [isGoogleDriveConnected] and [fileSearchApiKey]; React runs it again
    after a render in which one of them changed.  Each run builds a new
    closure [syncAndPoll] over the values of that render, calls it once
    and hands it to [setInterval].  JavaScript runs one callback at a
    time: a handler, a timer tick, or the continuation of an await whose
    promise has settled. *)

(** A call of [syncAndPoll] that is waiting on a collaborator. *)
Record Cycle : Type := mkCycle
  { startedFor : Render;
    suspended : Task unit }.

Record World : Type := mkWorld
  { appState : AppState;
    (** the closure armed with [setInterval], if a timer is running *)
    interval : option Render;
    (** the calls of [syncAndPoll] that have not returned yet *)
    inflight : list Cycle }.

Definition initialWorld : World := mkWorld initialState None [].

Inductive Event : Type :=
| AddClient (name : string) (now : N) (uuid : string)
| SelectClient (id : string)
| SetFolderUrl (clientId url : string)
| SetFileSearchApiKey (key : string)
| ConnectGoogleDrive (success : bool)
| RunEffect
| Tick
| FetchSettles (i : nat) (fetched : Settled (list DriveFile.t))
| SyncSettles (i : nat) (synced : Settled (list SyncedFile.t)).

(** A task that stopped at an await stays in flight; one that returned
    is gone. *)
Definition awaiting (r : Render) (t : Task unit) : list Cycle :=
  match t with
  | Return _ => []
  | _ => [mkCycle r t]
  end.

Definition onApp (f : AppState -> AppState) (w : World) : World :=
  mkWorld (f (appState w)) (interval w) (inflight w).

(** A call [syncAndPoll()] of the closure built in render [r]. *)
Definition callSyncAndPoll (r : Render) (w : World) : World :=
  let (s, t) := advance (syncAndPoll r) (appState w) in
  mkWorld s (interval w) (inflight w ++ awaiting r t).

(** The continuation [t] of the [i]-th cycle in flight runs. *)
Definition resumeCycle (i : nat) (cy : Cycle) (t : Task unit) (w : World) : World :=
  let (s, t') := advance t (appState w) in
  mkWorld s (interval w)
    (firstn i (inflight w) ++ awaiting (startedFor cy) t' ++ skipn (S i) (inflight w)).

(** One run of the effect: [clearInterval], then the initial call and
    [setInterval] when a client with a folder is selected. *)
Definition runEffect (w : World) : World :=
  let r := render (appState w) in
  let cleared := mkWorld (appState w) None (inflight w) in
  match r_selectedClient r with
  | None => cleared
  | Some sel =>
      match Client.googleDriveFolderUrl sel with
      | None => cleared
      | Some url =>
          if truthy url then
            let started := callSyncAndPoll r cleared in
            mkWorld (appState started) (Some r) (inflight started)
          else cleared
      end
  end.

Definition step (w : World) (e : Event) : World :=
  match e with
  | AddClient name now uuid => onApp (handleAddClient name now uuid) w
  | SelectClient id => onApp (handleSelectClient id) w
  | SetFolderUrl clientId url => onApp (handleSetFolderUrl clientId url) w
  | SetFileSearchApiKey key => onApp (setFileSearchApiKey key) w
  | ConnectGoogleDrive success => onApp (handleConnectGoogleDrive success) w
  | RunEffect => runEffect w
  | Tick =>
      match interval w with
      | Some r => callSyncAndPoll r w
      | None => w
      end
  | FetchSettles i fetched =>
      match nth_error (inflight w) i with
      | Some cy =>
          match suspended cy with
          | AwaitGetFilesFromFolder _ resume => resumeCycle i cy (resume fetched) w
          | _ => w
          end
      | None => w
      end
  | SyncSettles i synced =>
      match nth_error (inflight w) i with
      | Some cy =>
          match suspended cy with
          | AwaitSyncClientFiles _ _ _ resume => resumeCycle i cy (resume synced) w
          | _ => w
          end
      | None => w
      end
  end.

Definition run (w : World) (trace : list Event) : World :=
  fold_left step trace w.

Inductive reachable : World -> Prop :=
| reachable_initial : reachable initialWorld
| reachable_step : forall w e, reachable w -> reachable (step w e).

(** The number of cycles in flight that were started for client [id]. *)
Definition startedForClient (id : string) (cy : Cycle) : bool :=
  match r_selectedClient (startedFor cy) with
  | Some sel => String.eqb (Client.id sel) id
  | None => false
  end.

Definition cyclesInFlight (id : string) (w : World) : nat :=
  length (filter (startedForClient id) (inflight w)).

(** What a cycle in flight looks like: a call of [syncAndPoll] that
    passed its guard and waits for the drive listing or for the index. *)
Inductive cycleShape : Cycle -> Prop :=
| shape_fetching : forall r sel url,
    activation r = Some (sel, url) ->
    cycleShape
      (mkCycle r (AwaitGetFilesFromFolder url (afterFetch sel (r_fileSearchApiKey r))))
| shape_syncing : forall r sel url driveFiles,
    activation r = Some (sel, url) ->
    changeDetected (Client.files sel) driveFiles = true ->
    cycleShape
      (mkCycle r (AwaitSyncClientFiles sel driveFiles (r_fileSearchApiKey r) (afterSync sel))).

(** A sequence of calls of [handleAddClient], each with the name typed,
    the value [Date.now()] returned and the uuid drawn. *)
Definition addClients (calls : list (string * N * string)) (s : AppState) : AppState :=
  fold_left (fun acc '(name, now, uuid) => handleAddClient name now uuid acc) calls s.

(** ** Sample data *)

Module Sample.

Definition report : DriveFile.t := DriveFile.mk "1" "a".
Definition notes : DriveFile.t := DriveFile.mk "2" "b".

Definition indexedReport : SyncedFile.t :=
  SyncedFile.mk "1" "a" "A report." indexed.

(** A client is added, gets a folder, the drive is connected and a
    key is entered; the effect runs after each render that changed
    the selected client, the connection or the key. *)
Definition setup : list Event :=
  [ AddClient "Acme" 1000 "uuid-1"; RunEffect;
    SetFolderUrl "client_1000" "https://drive.example/acme"; RunEffect;
    ConnectGoogleDrive true; RunEffect;
    SetFileSearchApiKey "secret"; RunEffect ].

(** The first cycle has listed the folder and waits for the index;
    then a second client is added, which selects it. *)
Definition switchedAway : list Event :=
  (setup ++
   [ FetchSettles 0 (Fulfilled [report]); RunEffect;
     AddClient "Bolt" 2000 "uuid-2"; RunEffect ])%list.

Definition acme : Client.t :=
  Client.mk "client_1000" "Acme" [] "key_uuid-1" (Some "https://drive.example/acme").

Definition acmeRender : Render := mkRender (Some acme) true "secret".

Definition acmeState : AppState :=
  mkApp [acme] (Some "client_1000") "secret" true false (Some "quota exceeded").

(** Two snapshots of one file each, with different ids and different
    contents, and the same concatenation. *)
Definition storedAbc : list SyncedFile.t := [SyncedFile.mk "a" "bc" "A summary." indexed].
Definition remoteAbc : list DriveFile.t := [DriveFile.mk "ab" "c"].

(** Two snapshots with a different number of files and the same
    concatenation. *)
Definition storedOne : list SyncedFile.t := [SyncedFile.mk "a" "b" "A summary." indexed].
Definition remoteTwo : list DriveFile.t := [DriveFile.mk "a" ""; DriveFile.mk "b" ""].

Definition abcClient : Client.t :=
  Client.mk "client_1000" "Acme" storedAbc "key_uuid-1" (Some "https://drive.example/acme").

Definition abcState : AppState :=
  mkApp [abcClient] (Some "client_1000") "secret" true false None.

(** The same two files in two orders, with the same concatenation. *)
Definition storedOrder : list SyncedFile.t :=
  [SyncedFile.mk "1" "2" "First." indexed; SyncedFile.mk "12" "12" "Second." indexed].
Definition remoteOrder : list DriveFile.t :=
  [DriveFile.mk "12" "12"; DriveFile.mk "1" "2"].

End Sample.

(** ** Further notions used by the properties *)

(** Every code unit of [s] is white space; so is the empty string. *)
Fixpoint allWhiteSpace (s : string) : bool :=
  match s with
  | EmptyString => true
  | String a rest => isWhiteSpace a && allWhiteSpace rest
  end.

(** What identifies a client: the fields no state update rewrites. *)
Definition identity (c : Client.t) : string * string * string :=
  (Client.id c, Client.name c, Client.apiKey c).

(** [n] calls of [syncAndPoll] one after the other, each by the closure
    of the render that follows the previous call, the drive listing
    settling as [fetched] and the index sync as [synced] every time. *)
Fixpoint pollRepeatedly (n : nat) (fetched : Settled (list DriveFile.t))
    (synced : Settled (list SyncedFile.t)) (s : AppState) : AppState :=
  match n with
  | O => s
  | S k =>
      pollRepeatedly k fetched synced
        (fst (complete fetched synced (Fulfilled "") (syncAndPoll (render s)) s))
  end.

(** The events that are calls of the handlers, as opposed to the effect,
    the timer and the continuations of [syncAndPoll]. *)
Definition isHandlerEvent (e : Event) : bool :=
  match e with
  | AddClient _ _ _ | SelectClient _ | SetFolderUrl _ _
  | SetFileSearchApiKey _ | ConnectGoogleDrive _ => true
  | RunEffect | Tick | FetchSettles _ _ | SyncSettles _ _ => false
  end.

Module More.

Definition bolt : Client.t :=
  Client.mk "client_2000" "Bolt" [] "key_uuid-2" None.

(** Acme with its report indexed, and Bolt without a folder. *)
Definition acmeIndexed : Client.t :=
  Client.mk "client_1000" "Acme" [Sample.indexedReport] "key_uuid-1"
    (Some "https://drive.example/acme").

Definition twoClients : AppState :=
  mkApp [acmeIndexed; bolt] (Some "client_2000") "secret" true false None.

Definition blankKeyRender : Render := mkRender (Some Sample.acme) true "   ".

(** Acme holding the two files of [Sample.storedOrder]. *)
Definition orderClient : Client.t :=
  Client.mk "client_1000" "Acme" Sample.storedOrder "key_uuid-1"
    (Some "https://drive.example/acme").

Definition orderState : AppState :=
  mkApp [orderClient] (Some "client_1000") "secret" true false None.

End More.

(** * Properties *)

(** ** Strings and fingerprints *)

Lemma truthy_true_iff : forall s, truthy s = true <-> s <> "".
Proof.
  intros [|a s]; simpl; split; intro H; easy.
Qed.

Lemma join_cons : forall (x : string) (xs : list string),
  String.concat "" (x :: xs) = x ++ String.concat "" xs.
Proof.
  intros x [|y ys]; simpl.
  - induction x as [|a x IH]; simpl; [reflexivity | now rewrite <- IH].
  - reflexivity.
Qed.

Lemma fingerprint_cons : forall {A} `{FileLike A} (f : A) (fs : list A),
  fingerprint (f :: fs) = (fileId f ++ fileContent f) ++ fingerprint fs.
Proof.
  intros A HA f fs. unfold fingerprint. rewrite map_cons. apply join_cons.
Qed.

Lemma fingerprint_placeholder : forall driveFiles,
  fingerprint (map placeholder driveFiles) = fingerprint driveFiles.
Proof.
  induction driveFiles as [|df rest IH]; [reflexivity|].
  rewrite map_cons, !fingerprint_cons, IH. reflexivity.
Qed.

Lemma changeDetected_false_iff :
  forall {A B} `{FileLike A} `{FileLike B} (stored : list A) (remote : list B),
    changeDetected stored remote = false <-> fingerprint stored = fingerprint remote.
Proof.
  intros. unfold changeDetected.
  rewrite negb_false_iff. apply String.eqb_eq.
Qed.

Lemma changeDetected_true_iff :
  forall {A B} `{FileLike A} `{FileLike B} (stored : list A) (remote : list B),
    changeDetected stored remote = true <-> fingerprint stored <> fingerprint remote.
Proof.
  intros. unfold changeDetected.
  rewrite negb_true_iff. apply String.eqb_neq.
Qed.

(** A fingerprint determines the files it was built from when all ids
    have one length and all contents have one length. *)

Lemma append_same_length : forall a b s t : string,
  String.length a = String.length b -> a ++ s = b ++ t -> a = b /\ s = t.
Proof.
  induction a as [|x a IH]; intros [|y b] s t Hlen Heq; simpl in *; try discriminate.
  - auto.
  - injection Heq as -> Heq. injection Hlen as Hlen.
    destruct (IH b s t Hlen Heq) as [-> ->]. auto.
Qed.

Lemma append_assoc : forall a b c : string, (a ++ b) ++ c = a ++ (b ++ c).
Proof.
  induction a as [|x a IH]; intros; simpl; [reflexivity | now rewrite IH].
Qed.

Lemma length_append : forall a b : string,
  String.length (a ++ b) = String.length a + String.length b.
Proof.
  induction a as [|x a IH]; intro b; simpl; [reflexivity | now rewrite IH].
Qed.

Section FixedWidth.

Context {A B : Type} `{FileLike A} `{FileLike B}.
Variables n m : nat.
Hypothesis some_width : 0 < n + m.

Lemma fingerprint_fixed_width_inj : forall (stored : list A) (remote : list B),
  Forall (hasWidth n m) stored -> Forall (hasWidth n m) remote ->
  fingerprint stored = fingerprint remote ->
  map idContent stored = map idContent remote.
Proof.
  induction stored as [|f fs IH]; intros [|g gs] Hs Hr Heq.
  - reflexivity.
  - exfalso. rewrite fingerprint_cons in Heq.
    inversion Hr as [|? ? Hg _]; subst. destruct Hg as [Hi Hc].
    apply (f_equal String.length) in Heq.
    rewrite !length_append, Hi, Hc in Heq. simpl in Heq. lia.
  - exfalso. rewrite fingerprint_cons in Heq.
    inversion Hs as [|? ? Hf _]; subst. destruct Hf as [Hi Hc].
    apply (f_equal String.length) in Heq.
    rewrite !length_append, Hi, Hc in Heq. simpl in Heq. lia.
  - inversion Hs as [|? ? Hf Hfs]; inversion Hr as [|? ? Hg Hgs]; subst.
    destruct Hf as [Hfi Hfc], Hg as [Hgi Hgc].
    rewrite !fingerprint_cons, !append_assoc in Heq.
    apply append_same_length in Heq as [Hid Heq]; [|congruence].
    apply append_same_length in Heq as [Hcontent Heq]; [|congruence].
    simpl. unfold idContent at 1 3. rewrite Hid, Hcontent. f_equal. now apply IH.
Qed.

End FixedWidth.

(** ** One call of [syncAndPoll] *)

Lemma activation_spec : forall r sel url,
  activation r = Some (sel, url) <->
  r_selectedClient r = Some sel /\
  Client.googleDriveFolderUrl sel = Some url /\
  url <> "" /\
  r_isGoogleDriveConnected r = true /\
  trim (r_fileSearchApiKey r) <> "".
Proof.
  intros r sel url. unfold activation.
  destruct (r_selectedClient r) as [c|]; [|split; [discriminate | intros [? _]; discriminate]].
  destruct (Client.googleDriveFolderUrl c) as [u|] eqn:Hu.
  - destruct (truthy u) eqn:Tu, (r_isGoogleDriveConnected r) eqn:Tc,
      (truthy (trim (r_fileSearchApiKey r))) eqn:Tk; simpl;
      (split;
       [ intro E; inversion E; subst; repeat split;
         try (apply truthy_true_iff); congruence
       | intros (E1 & E2 & E3 & E4 & E5); inversion E1; subst;
         apply truthy_true_iff in E3; apply truthy_true_iff in E5; congruence ]).
  - split; [discriminate|]. intros (E1 & E2 & _). inversion E1; subst. congruence.
Qed.

Lemma syncAndPoll_active : forall r sel url,
  activation r = Some (sel, url) ->
  syncAndPoll r =
    (setIsSyncing true ;; setSyncError None ;;
     AwaitGetFilesFromFolder url (afterFetch sel (r_fileSearchApiKey r))).
Proof. intros r sel url H. unfold syncAndPoll. now rewrite H. Qed.

Lemma syncAndPoll_idle : forall r,
  activation r = None ->
  syncAndPoll r = (setIsSyncing false ;; Return (Fulfilled tt)).
Proof. intros r H. unfold syncAndPoll. now rewrite H. Qed.

Lemma advance_stopped : forall {R} (t : Task R) s,
  stopped (snd (advance t s)).
Proof.
  induction t; intro s; simpl; auto.
Qed.

Lemma complete_advance : forall {R} fetched synced answered (t : Task R) s,
  complete fetched synced answered t s =
  complete fetched synced answered (snd (advance t s)) (fst (advance t s)).
Proof.
  induction t; intro s; simpl; auto.
Qed.

(** The files of the clients whose id is not [sel]'s are not touched by
    either [setClients] of a cycle started for [sel]. *)
Lemma markSyncing_nth : forall sel driveFiles prev j,
  nth_error (markSyncing sel driveFiles prev) j =
  option_map
    (fun c => if String.eqb (Client.id c) (Client.id sel)
              then Client.withFiles c (map placeholder driveFiles) else c)
    (nth_error prev j).
Proof. intros. unfold markSyncing. apply nth_error_map. Qed.

Lemma commitIndexed_nth : forall sel indexedFiles prev j,
  nth_error (commitIndexed sel indexedFiles prev) j =
  option_map
    (fun c => if String.eqb (Client.id c) (Client.id sel)
              then Client.withFiles c indexedFiles else c)
    (nth_error prev j).
Proof. intros. unfold commitIndexed. apply nth_error_map. Qed.


Lemma find_replace_files : forall sel id files prev,
  find (fun c => String.eqb (Client.id c) id)
       (map (fun c => if String.eqb (Client.id c) (Client.id sel)
                      then Client.withFiles c files else c) prev) =
  option_map
    (fun c => if String.eqb (Client.id c) (Client.id sel)
              then Client.withFiles c files else c)
    (find (fun c => String.eqb (Client.id c) id) prev).
Proof.
  intros sel id files prev.
  induction prev as [|c rest IH]; simpl; [reflexivity|].
  destruct (String.eqb (Client.id c) (Client.id sel)) eqn:Hsel; simpl;
    destruct (String.eqb (Client.id c) id); simpl; rewrite ?Hsel; auto.
Qed.

Lemma afterFetch_changed_task : forall sel apiKey driveFiles,
  changeDetected (Client.files sel) driveFiles = true ->
  afterFetch sel apiKey (Fulfilled driveFiles) =
  (setClients (markSyncing sel driveFiles) ;;
   AwaitSyncClientFiles sel driveFiles apiKey (afterSync sel)).
Proof. intros sel apiKey driveFiles H. simpl. now rewrite H. Qed.

Lemma afterFetch_unchanged_task : forall sel apiKey driveFiles,
  changeDetected (Client.files sel) driveFiles = false ->
  afterFetch sel apiKey (Fulfilled driveFiles) = finallyBlock.
Proof. intros sel apiKey driveFiles H. simpl. now rewrite H. Qed.

Lemma afterFetch_rejected : forall sel apiKey e s,
  advance (afterFetch sel apiKey (Rejected e)) s =
  (setIsSyncing false (setSyncError (Some (errorMessage e)) s), Return (Fulfilled tt)).
Proof. reflexivity. Qed.

Lemma afterFetch_unchanged : forall sel apiKey driveFiles s,
  changeDetected (Client.files sel) driveFiles = false ->
  advance (afterFetch sel apiKey (Fulfilled driveFiles)) s =
  (setIsSyncing false s, Return (Fulfilled tt)).
Proof. intros sel apiKey driveFiles s H. simpl. now rewrite H. Qed.

Lemma afterFetch_changed : forall sel apiKey driveFiles s,
  changeDetected (Client.files sel) driveFiles = true ->
  advance (afterFetch sel apiKey (Fulfilled driveFiles)) s =
  (setClients (markSyncing sel driveFiles) s,
   AwaitSyncClientFiles sel driveFiles apiKey (afterSync sel)).
Proof. intros sel apiKey driveFiles s H. simpl. now rewrite H. Qed.

Lemma afterSync_rejected : forall sel e s,
  advance (afterSync sel (Rejected e)) s =
  (setIsSyncing false (setSyncError (Some (errorMessage e)) s), Return (Fulfilled tt)).
Proof. reflexivity. Qed.

Lemma afterSync_fulfilled : forall sel indexedFiles s,
  advance (afterSync sel (Fulfilled indexedFiles)) s =
  (setIsSyncing false (setClients (commitIndexed sel indexedFiles) s),
   Return (Fulfilled tt)).
Proof. reflexivity. Qed.

(** C10: a call of [syncAndPoll] that passes its guard (a client is
    selected, its folder url is set and not empty, the drive is
    connected, the trimmed key is not empty) stops at the await of the
    drive listing with [syncError] already reset to [null], whatever it
    was before, and [isSyncing] set. *)
Theorem syncError_cleared_when_cycle_starts :
  forall r sel url s,
    r_selectedClient r = Some sel ->
    Client.googleDriveFolderUrl sel = Some url ->
    url <> "" ->
    r_isGoogleDriveConnected r = true ->
    trim (r_fileSearchApiKey r) <> "" ->
    exists s1 resume,
      advance (syncAndPoll r) s = (s1, AwaitGetFilesFromFolder url resume) /\
      syncError s1 = None /\ isSyncing s1 = true /\ clients s1 = clients s.
Proof.
  intros r sel url s Hsel Hurl Hne Hconn Hkey.
  assert (Hact : activation r = Some (sel, url)) by (apply activation_spec; auto).
  rewrite (syncAndPoll_active _ _ _ Hact). simpl.
  eexists. eexists. split; [reflexivity|]. auto.
Qed.

Lemma syncError_cleared_when_cycle_starts_witness :
  syncError Sample.acmeState = Some "quota exceeded" /\
  exists s1 resume,
    advance (syncAndPoll Sample.acmeRender) Sample.acmeState =
      (s1, AwaitGetFilesFromFolder "https://drive.example/acme" resume) /\
    syncError s1 = None /\ isSyncing s1 = true /\
    clients s1 = clients Sample.acmeState.
Proof.
  split; [reflexivity|].
  apply (syncError_cleared_when_cycle_starts Sample.acmeRender Sample.acme);
    solve [reflexivity | discriminate].
Defined.

(** C6: when the drive listing fails, the call of [syncAndPoll] ends
    with [syncError] set to the message of the failure and [isSyncing]
    cleared, and the clients, hence every file and every status, are
    what they were when the call began.  The continuation that receives
    the failure changes no client in whatever state it runs. *)
Theorem fetch_failure_leaves_files_untouched :
  forall r sel url e,
    activation r = Some (sel, url) ->
    (forall synced answered s,
       let s' := fst (complete (Rejected e) synced answered (syncAndPoll r) s) in
       clients s' = clients s /\
       syncError s' = Some (errorMessage e) /\
       isSyncing s' = false) /\
    (forall s,
       let s' := fst (advance (afterFetch sel (r_fileSearchApiKey r) (Rejected e)) s) in
       clients s' = clients s /\ syncError s' = Some (errorMessage e)).
Proof.
  intros r sel url e Hact. split.
  - intros synced answered s. rewrite (syncAndPoll_active _ _ _ Hact).
    simpl. auto.
  - intro s. rewrite afterFetch_rejected. simpl. auto.
Qed.

Lemma fetch_failure_leaves_files_untouched_witness :
  let s' := fst (complete (Rejected (ErrorObject "network down"))
                   (Fulfilled []) (Fulfilled "")
                   (syncAndPoll Sample.acmeRender) Sample.acmeState) in
  clients s' = clients Sample.acmeState /\
  syncError s' = Some "network down" /\
  isSyncing s' = false.
Proof.
  apply (fetch_failure_leaves_files_untouched Sample.acmeRender Sample.acme
           "https://drive.example/acme" (ErrorObject "network down")).
  reflexivity.
Defined.

(** C5: when a change was detected and the index sync then fails, the
    call of [syncAndPoll] ends with [syncError] set to the message of
    the failure: the message of the [Error] thrown, or the fixed text
    when what was thrown is no [Error].  Every client with the id of
    the selected one holds the drive files as placeholders (summary
    ['...'], status [syncing]), which are not the files it had, and the
    continuation that receives the failure changes no client, so
    nothing is rolled back. *)
Theorem sync_failure_keeps_placeholders :
  forall r sel url driveFiles e,
    activation r = Some (sel, url) ->
    changeDetected (Client.files sel) driveFiles = true ->
    (forall answered s,
       let s' := fst (complete (Fulfilled driveFiles) (Rejected e) answered
                        (syncAndPoll r) s) in
       clients s' = markSyncing sel driveFiles (clients s) /\
       syncError s' = Some (errorMessage e) /\
       (forall message, e = ErrorObject message -> syncError s' = Some message) /\
       (e = OtherValue ->
        syncError s' = Some "An unknown error occurred during sync.") /\
       isSyncing s' = false /\
       (forall c, In c (clients s') -> Client.id c = Client.id sel ->
          Client.files c = map placeholder driveFiles /\
          Forall (fun f => SyncedFile.summary f = "..." /\
                           SyncedFile.status f = syncing) (Client.files c) /\
          Client.files c <> Client.files sel)) /\
    (forall s,
       let s' := fst (advance (afterSync sel (Rejected e)) s) in
       clients s' = clients s /\
       syncError s' = Some (errorMessage e) /\
       (forall message, e = ErrorObject message -> syncError s' = Some message) /\
       (e = OtherValue ->
        syncError s' = Some "An unknown error occurred during sync.")).
Proof.
  intros r sel url driveFiles e Hact Hchanged. split.
  - intros answered s. rewrite (syncAndPoll_active _ _ _ Hact).
    cbn [complete]. rewrite (afterFetch_changed_task _ _ _ Hchanged). simpl.
    split; [reflexivity|]. split; [reflexivity|].
    split; [intros message ->; reflexivity|].
    split; [intros ->; reflexivity|].
    split; [reflexivity|].
    intros c Hin Hid. unfold markSyncing in Hin.
    apply in_map_iff in Hin as (c0 & Hc0 & _).
    destruct (String.eqb (Client.id c0) (Client.id sel)) eqn:E.
    + subst c. simpl. split; [reflexivity|]. split.
      * apply Forall_forall. intros f Hf.
        apply in_map_iff in Hf as (df & <- & _). simpl. auto.
      * intro Heq. apply changeDetected_true_iff in Hchanged.
        apply Hchanged. rewrite <- Heq. now rewrite fingerprint_placeholder.
    + subst c. apply String.eqb_neq in E. contradiction.
  - intro s. rewrite afterSync_rejected. simpl.
    split; [reflexivity|]. split; [reflexivity|].
    split; [intros message ->; reflexivity | intros ->; reflexivity].
Qed.

Lemma sync_failure_keeps_placeholders_witness :
  let s' := fst (complete (Fulfilled [Sample.report])
                   (Rejected (ErrorObject "index unavailable")) (Fulfilled "")
                   (syncAndPoll Sample.acmeRender) Sample.acmeState) in
  syncError Sample.acmeState = Some "quota exceeded" /\
  syncError s' = Some "index unavailable" /\
  map Client.files (clients s') = [[SyncedFile.mk "1" "a" "..." syncing]].
Proof.
  destruct (sync_failure_keeps_placeholders Sample.acmeRender Sample.acme
              "https://drive.example/acme" [Sample.report]
              (ErrorObject "index unavailable") eq_refl eq_refl) as [Hrun _].
  destruct (Hrun (Fulfilled "") Sample.acmeState) as (Hclients & _ & Hmessage & _).
  split; [reflexivity|].
  split; [exact (Hmessage "index unavailable" eq_refl)|].
  cbv zeta. rewrite Hclients. reflexivity.
Defined.

(** A call of [syncAndPoll] writes [clients], [isSyncing] and
    [syncError] only. *)
Lemma syncAndPoll_keeps_settings : forall r fetched synced answered s,
  let s' := fst (complete fetched synced answered (syncAndPoll r) s) in
  selectedClientId s' = selectedClientId s /\
  fileSearchApiKey s' = fileSearchApiKey s /\
  isGoogleDriveConnected s' = isGoogleDriveConnected s.
Proof.
  intros r fetched synced answered s. unfold syncAndPoll.
  destruct (activation r) as [[sel url]|]; simpl; auto.
  destruct fetched as [driveFiles|e]; simpl; auto.
  destruct (changeDetected (Client.files sel) driveFiles); simpl; auto.
  destruct synced; simpl; auto.
Qed.

(** The clients after a whole call of [syncAndPoll]. *)
Lemma syncAndPoll_clients : forall r fetched synced answered s,
  clients (fst (complete fetched synced answered (syncAndPoll r) s)) =
  match activation r, fetched with
  | Some (sel, _), Fulfilled driveFiles =>
      if changeDetected (Client.files sel) driveFiles then
        match synced with
        | Fulfilled indexedFiles =>
            commitIndexed sel indexedFiles (markSyncing sel driveFiles (clients s))
        | Rejected _ => markSyncing sel driveFiles (clients s)
        end
      else clients s
  | _, _ => clients s
  end.
Proof.
  intros r fetched synced answered s. unfold syncAndPoll.
  destruct (activation r) as [[sel url]|]; simpl; auto.
  destruct fetched as [driveFiles|e]; simpl; auto.
  destruct (changeDetected (Client.files sel) driveFiles); simpl; auto.
  destruct synced; simpl; auto.
Qed.

Lemma activation_render : forall s sel url,
  activation (render s) = Some (sel, url) ->
  exists id, selectedClientId s = Some id /\
             find (fun c => String.eqb (Client.id c) id) (clients s) = Some sel.
Proof.
  intros s sel url Hact. apply activation_spec in Hact as (Hsel & _).
  simpl in Hsel. unfold selectedClient in Hsel.
  destruct (selectedClientId s) as [id|]; [|discriminate].
  exists id. auto.
Qed.

(** After a call that replaced the files of the selected client by
    [files], the next render selects that client with [files], and a
    listing with the fingerprint of [files] is no change. *)
Lemma quiet_after_replacement : forall s s1 sel url files driveFiles synced answered,
  activation (render s) = Some (sel, url) ->
  selectedClientId s1 = selectedClientId s ->
  fileSearchApiKey s1 = fileSearchApiKey s ->
  isGoogleDriveConnected s1 = isGoogleDriveConnected s ->
  (forall id, find (fun c => String.eqb (Client.id c) id) (clients s1) =
     option_map (fun c => if String.eqb (Client.id c) (Client.id sel)
                          then Client.withFiles c files else c)
                (find (fun c => String.eqb (Client.id c) id) (clients s))) ->
  fingerprint files = fingerprint driveFiles ->
  clients (fst (complete (Fulfilled driveFiles) synced answered
                  (syncAndPoll (render s1)) s1)) = clients s1.
Proof.
  intros s s1 sel url files driveFiles synced answered
         Hact Hid Hkey Hconn Hfind Hprint.
  destruct (activation_render _ _ _ Hact) as (id & Hsid & Hfound).
  apply activation_spec in Hact as (_ & Hurl & Hne & Hc & Hk). simpl in Hc, Hk.
  assert (Hact1 : activation (render s1) = Some (Client.withFiles sel files, url)).
  { apply activation_spec. simpl. unfold selectedClient.
    rewrite Hid, Hsid, Hfind, Hfound, Hkey, Hconn. simpl.
    rewrite String.eqb_refl. auto. }
  rewrite syncAndPoll_clients, Hact1.
  assert (Hquiet : changeDetected (Client.files (Client.withFiles sel files)) driveFiles = false)
    by (apply changeDetected_false_iff; exact Hprint).
  now rewrite Hquiet.
Qed.

(** C7: a listing whose fingerprint equals that of the selected
    client's files leaves every client as it was; of two calls in a row
    that see the same listing the second changes no client, the index
    returning records with the fingerprint of the files it was given;
    two empty sequences are no change. *)
Theorem equal_fingerprint_no_mutation :
  (forall r sel driveFiles synced answered s,
     r_selectedClient r = Some sel ->
     fingerprint (Client.files sel) = fingerprint driveFiles ->
     clients (fst (complete (Fulfilled driveFiles) synced answered
                     (syncAndPoll r) s)) = clients s) /\
  (forall s driveFiles synced1 synced2 answered,
     (forall indexedFiles, synced1 = Fulfilled indexedFiles ->
        fingerprint indexedFiles = fingerprint driveFiles) ->
     let s1 := fst (complete (Fulfilled driveFiles) synced1 answered
                      (syncAndPoll (render s)) s) in
     let s2 := fst (complete (Fulfilled driveFiles) synced2 answered
                      (syncAndPoll (render s1)) s1) in
     clients s2 = clients s1) /\
  changeDetected (@nil SyncedFile.t) (@nil DriveFile.t) = false.
Proof.
  split; [|split; [|reflexivity]].
  - intros r sel driveFiles synced answered s Hsel Hprint.
    rewrite syncAndPoll_clients.
    destruct (activation r) as [[sel' url]|] eqn:Hact; [|reflexivity].
    apply activation_spec in Hact as (Hsel' & _).
    assert (sel' = sel) by congruence. subst sel'.
    apply changeDetected_false_iff in Hprint. now rewrite Hprint.
  - intros s driveFiles synced1 synced2 answered Hindex s1 s2. subst s2.
    destruct (syncAndPoll_keeps_settings (render s) (Fulfilled driveFiles)
                synced1 answered s) as (Hid & Hkey & Hconn).
    fold s1 in Hid, Hkey, Hconn.
    assert (Hs1 := syncAndPoll_clients (render s) (Fulfilled driveFiles)
                     synced1 answered s).
    fold s1 in Hs1.
    destruct (activation (render s)) as [[sel url]|] eqn:Hact.
    + destruct (changeDetected (Client.files sel) driveFiles) eqn:Hchanged.
      * destruct synced1 as [indexedFiles|e].
        -- apply (quiet_after_replacement s s1 sel url indexedFiles); auto.
           intro id. rewrite Hs1. unfold commitIndexed, markSyncing.
           rewrite !find_replace_files.
           destruct (find _ (clients s)) as [c|]; simpl; [|reflexivity].
           destruct (String.eqb (Client.id c) (Client.id sel)) eqn:E; simpl;
             rewrite E; reflexivity.
        -- apply (quiet_after_replacement s s1 sel url (map placeholder driveFiles));
             auto using fingerprint_placeholder.
           intro id. rewrite Hs1. unfold markSyncing. apply find_replace_files.
      * assert (Hsame : render s1 = render s).
        { unfold render, selectedClient. now rewrite Hid, Hkey, Hconn, Hs1. }
        rewrite Hsame, syncAndPoll_clients, Hact, Hchanged. reflexivity.
    + assert (Hsame : render s1 = render s).
      { unfold render, selectedClient. now rewrite Hid, Hkey, Hconn, Hs1. }
      rewrite Hsame, syncAndPoll_clients, Hact. reflexivity.
Qed.

Lemma equal_fingerprint_no_mutation_witness :
  let s1 := fst (complete (Fulfilled [Sample.report])
                   (Fulfilled [Sample.indexedReport]) (Fulfilled "")
                   (syncAndPoll (render Sample.acmeState)) Sample.acmeState) in
  let s2 := fst (complete (Fulfilled [Sample.report])
                   (Fulfilled [Sample.indexedReport]) (Fulfilled "")
                   (syncAndPoll (render s1)) s1) in
  map Client.files (clients s1) = [[Sample.indexedReport]] /\
  clients s2 = clients s1.
Proof.
  split; [reflexivity|].
  destruct equal_fingerprint_no_mutation as (_ & Htwice & _).
  apply (Htwice Sample.acmeState [Sample.report]
           (Fulfilled [Sample.indexedReport]) (Fulfilled [Sample.indexedReport])
           (Fulfilled "")).
  intros indexedFiles Heq. injection Heq as <-. reflexivity.
Defined.

(** ** The query *)

Lemma no_target_no_selectedClient : forall s,
  selectedClientId s = None -> selectedClient s = None.
Proof. intros s H. unfold selectedClient. now rewrite H. Qed.

(** C8: with no client selected [handleSearch] returns the fixed text
    without calling the index; otherwise it awaits the query of the
    index for the selected client, the text and the key of the state,
    and returns whatever that settles with, unchanged.  The state is
    not written. *)
Theorem handleSearch_delegates :
  forall s query,
    (selectedClientId s = None ->
     handleSearch (render s) query = Return (Fulfilled "No client selected.")) /\
    (selectedClient s = None ->
     handleSearch (render s) query = Return (Fulfilled "No client selected.")) /\
    (forall sel, selectedClient s = Some sel ->
       exists resume,
         handleSearch (render s) query =
           AwaitQuery sel query (fileSearchApiKey s) resume /\
         (forall answer, resume answer = Return answer) /\
         (forall fetched synced answer,
            complete fetched synced answer (handleSearch (render s) query) s =
            (s, answer))).
Proof.
  intros s query. unfold handleSearch. simpl. split; [|split].
  - intro Hnone. now rewrite (no_target_no_selectedClient s Hnone).
  - intros ->. reflexivity.
  - intros sel ->. eexists. split; [reflexivity|]. split; reflexivity.
Qed.

Lemma handleSearch_delegates_witness :
  handleSearch (render initialState) "invoices" =
    Return (Fulfilled "No client selected.") /\
  complete (Rejected OtherValue) (Rejected OtherValue) (Fulfilled "Three invoices.")
    (handleSearch (render Sample.acmeState) "invoices") Sample.acmeState =
    (Sample.acmeState, Fulfilled "Three invoices.").
Proof.
  split.
  - apply (handleSearch_delegates initialState "invoices"). reflexivity.
  - destruct (handleSearch_delegates Sample.acmeState "invoices") as (_ & _ & Hsome).
    destruct (Hsome Sample.acme eq_refl) as (resume & _ & _ & Hrun).
    apply Hrun.
Defined.

(** ** Change detection *)

(** C3: the stored file (id "a", content "bc") and the listed file
    (id "ab", content "c") differ in id and in content, yet both
    fingerprints are "abc": no change is detected and the call of
    [syncAndPoll] leaves the client's files as they were.  The same
    happens with one stored file against two listed ones. *)
Theorem colliding_snapshot_not_detected :
  map idContent Sample.storedAbc <> map idContent Sample.remoteAbc /\
  fingerprint Sample.storedAbc = "abc" /\
  fingerprint Sample.remoteAbc = "abc" /\
  changeDetected Sample.storedAbc Sample.remoteAbc = false /\
  (forall synced answered,
     clients (fst (complete (Fulfilled Sample.remoteAbc) synced answered
                     (syncAndPoll (render Sample.abcState)) Sample.abcState))
     = clients Sample.abcState) /\
  length Sample.storedOne <> length Sample.remoteTwo /\
  changeDetected Sample.storedOne Sample.remoteTwo = false.
Proof.
  repeat split; try discriminate.
Qed.

(** C4: the stored files (id "1", content "2"), (id "12", content "12")
    and the listing of the same two files in the other order hold the
    same (id, content) pairs in different orders, yet both fingerprints
    are "121212": no change is detected and the call of [syncAndPoll]
    leaves the client's files in the stored order. *)
Theorem reordered_snapshot_not_detected :
  Permutation (map idContent Sample.storedOrder) (map idContent Sample.remoteOrder) /\
  map idContent Sample.storedOrder <> map idContent Sample.remoteOrder /\
  fingerprint Sample.storedOrder = "121212" /\
  fingerprint Sample.remoteOrder = "121212" /\
  changeDetected Sample.storedOrder Sample.remoteOrder = false /\
  (forall synced answered,
     clients (fst (complete (Fulfilled Sample.remoteOrder) synced answered
                     (syncAndPoll (render More.orderState)) More.orderState))
     = clients More.orderState).
Proof.
  split; [apply perm_swap|].
  split; [discriminate|].
  repeat split.
Qed.

(** ** Client ids *)

Lemma numberToString_inj : forall n n', numberToString n = numberToString n' -> n = n'.
Proof.
  intros n n' H. apply DecimalN.Unsigned.to_uint_inj.
  assert (Hso : forall k, NilZero.uint_of_string (numberToString k) = Some (N.to_uint k)).
  { intro k. apply NilZero.usu. destruct k as [|p]; [discriminate|].
    apply DecimalPos.Unsigned.to_uint_nonnil. }
  assert (E : Some (N.to_uint n) = Some (N.to_uint n')) by (rewrite <- !Hso; now rewrite H).
  now injection E.
Qed.

Lemma append_inj_l : forall p a b : string, p ++ a = p ++ b -> a = b.
Proof.
  induction p as [|x p IH]; intros a b H; simpl in H; [exact H|].
  injection H as H. now apply IH.
Qed.

(** The ids after a sequence of calls: one per call with a name that is
    not blank, made of the clock value read by that call. *)
Lemma addClients_ids : forall calls s,
  map Client.id (clients (addClients calls s)) =
  (map Client.id (clients s) ++
   map (fun '(_, now, _) => ("client_" ++ numberToString now)%string)
       (filter (fun '(name, _, _) => truthy (trim name)) calls))%list.
Proof.
  induction calls as [|[[name now] uuid] rest IH]; intro s; simpl.
  - now rewrite app_nil_r.
  - unfold addClients in *. simpl. rewrite IH. unfold handleAddClient.
    destruct (truthy (trim name)); simpl; [|reflexivity].
    rewrite map_app, <- app_assoc. reflexivity.
Qed.

(** X3: when all the clock values read by a sequence of calls of
    [handleAddClient] are distinct, so are the ids in the registry. *)
Lemma addClients_distinct_clock : forall calls,
  NoDup (map (fun '(_, now, _) => now) calls) ->
  NoDup (map Client.id (clients (addClients calls initialState))).
Proof.
  intros calls Hclock. rewrite addClients_ids. simpl.
  induction calls as [|[[name now] uuid] rest IH]; simpl in *; [constructor|].
  inversion Hclock as [|? ? Hfresh Hrest]; subst.
  destruct (truthy (trim name)); simpl; [|now apply IH].
  constructor; [|now apply IH].
  intro Hin. apply Hfresh.
  apply in_map_iff in Hin as ([[name' now'] uuid'] & Heq & Hin).
  apply (append_inj_l "client_"), numberToString_inj in Heq. subst now'.
  apply filter_In in Hin as [Hin _].
  apply in_map_iff. now exists (name', now, uuid').
Qed.

(** C9: two calls of [handleAddClient] that read the same value of
    [Date.now()] give both clients the id "client_1000", so the ids of
    the registry are not pairwise distinct. *)
Theorem same_clock_same_id :
  let s := addClients [("Acme", 1000%N, "uuid-1"); ("Bolt", 1000%N, "uuid-2")]
             initialState in
  map Client.id (clients s) = ["client_1000"; "client_1000"] /\
  map Client.apiKey (clients s) = ["key_uuid-1"; "key_uuid-2"] /\
  ~ NoDup (map Client.id (clients s)).
Proof.
  split; [reflexivity|]. split; [reflexivity|].
  intro Hnodup. inversion Hnodup as [|? ? Hfresh _]; subst.
  apply Hfresh. left. reflexivity.
Qed.

(** ** The event loop *)

Lemma reachable_run : forall trace w, reachable w -> reachable (run w trace).
Proof.
  induction trace as [|e rest IH]; intros w Hw; simpl; [exact Hw|].
  apply IH. now constructor.
Qed.

Lemma Forall_firstn : forall {X} (P : X -> Prop) n l,
  Forall P l -> Forall P (firstn n l).
Proof.
  intros X P n l Hl. revert n.
  induction Hl as [|x l Hx _ IH]; intros [|n]; simpl; auto.
Qed.

Lemma Forall_skipn : forall {X} (P : X -> Prop) n l,
  Forall P l -> Forall P (skipn n l).
Proof.
  intros X P n l Hl. revert n.
  induction Hl as [|x l Hx Hl IH]; intros [|n]; simpl; auto.
Qed.

Lemma callSyncAndPoll_shape : forall r w,
  Forall cycleShape (inflight w) ->
  Forall cycleShape (inflight (callSyncAndPoll r w)).
Proof.
  intros r w Hw. unfold callSyncAndPoll, syncAndPoll.
  destruct (activation r) as [[sel url]|] eqn:Hact; simpl.
  - apply Forall_app. split; [exact Hw|].
    constructor; [|constructor]. now apply shape_fetching.
  - now rewrite app_nil_r.
Qed.

Lemma resumeCycle_shape : forall i cy t w,
  Forall cycleShape (inflight w) ->
  Forall cycleShape (awaiting (startedFor cy) (snd (advance t (appState w)))) ->
  Forall cycleShape (inflight (resumeCycle i cy t w)).
Proof.
  intros i cy t w Hw Ht. unfold resumeCycle.
  destruct (advance t (appState w)) as [s t'] eqn:E. cbn [inflight snd] in *.
  apply Forall_app. split; [now apply Forall_firstn|].
  apply Forall_app. split; [exact Ht | now apply Forall_skipn].
Qed.

(** Every cycle in flight is a call of [syncAndPoll] that passed its
    guard, waiting for the listing or for the index. *)
Lemma inflight_shape : forall w, reachable w -> Forall cycleShape (inflight w).
Proof.
  intros w Hw. induction Hw as [|w e Hw IH]; [constructor|].
  destruct e; simpl; auto.
  - unfold runEffect.
    destruct (r_selectedClient (render (appState w))) as [sel|]; [|exact IH].
    destruct (Client.googleDriveFolderUrl sel) as [url|]; [|exact IH].
    destruct (truthy url); [|exact IH].
    simpl. now apply (callSyncAndPoll_shape _ (mkWorld (appState w) None (inflight w))).
  - destruct (interval w) as [r|]; [|exact IH]. now apply callSyncAndPoll_shape.
  - destruct (nth_error (inflight w) i) as [cy|] eqn:Hcy; [|exact IH].
    assert (Hshape : cycleShape cy).
    { eapply Forall_forall; [exact IH | eapply nth_error_In; exact Hcy]. }
    destruct Hshape as [r sel url Hact | r sel url driveFiles Hact Hchanged];
      simpl; [|exact IH].
    apply resumeCycle_shape; [exact IH|]. simpl.
    destruct fetched as [driveFiles|e]; simpl; [|constructor].
    destruct (changeDetected (Client.files sel) driveFiles) eqn:Hchanged; simpl.
    + constructor; [|constructor]. now apply (shape_syncing r sel url).
    + constructor.
  - destruct (nth_error (inflight w) i) as [cy|] eqn:Hcy; [|exact IH].
    assert (Hshape : cycleShape cy).
    { eapply Forall_forall; [exact IH | eapply nth_error_In; exact Hcy]. }
    destruct Hshape as [r sel url Hact | r sel url driveFiles Hact Hchanged];
      simpl; [exact IH|].
    apply resumeCycle_shape; [exact IH|]. simpl.
    destruct synced; simpl; constructor.
Qed.

Lemma resumeCycle_appState : forall i cy t w,
  appState (resumeCycle i cy t w) = fst (advance t (appState w)).
Proof.
  intros. unfold resumeCycle. now destruct (advance t (appState w)).
Qed.




(** C2, as stated, fails: after the setup the timer is armed for
    client_1000 and one cycle for client_1000 is waiting for the drive
    listing; the next tick of the timer starts a second one. *)
Lemma tick_not_single_flight :
  ~ (forall w r sel,
       reachable w ->
       interval w = Some r ->
       r_selectedClient r = Some sel ->
       0 < cyclesInFlight (Client.id sel) w ->
       inflight (step w Tick) = inflight w /\
       cyclesInFlight (Client.id sel) (step w Tick) <= 1).
Proof.
  intro Hclaim.
  destruct (Hclaim (run initialWorld Sample.setup) Sample.acmeRender Sample.acme)
    as [_ Hone].
  - apply reachable_run. constructor.
  - reflexivity.
  - reflexivity.
  - vm_compute. lia.
  - vm_compute in Hone. lia.
Qed.

Lemma cyclesInFlight_app : forall id s t cycles more,
  cyclesInFlight id (mkWorld s t (cycles ++ more)) =
  cyclesInFlight id (mkWorld s t cycles) + length (filter (startedForClient id) more).
Proof.
  intros. unfold cyclesInFlight. simpl. now rewrite filter_app, length_app.
Qed.

(** C2, amended: a tick calls [syncAndPoll] whether or not cycles are in
    flight.  When the closure of the timer passes the guard, the call
    joins the cycles in flight, one more for its client; when it does
    not, the cycles in flight stay as they are and [isSyncing] is
    cleared. *)
Theorem tick_starts_cycle_regardless :
  forall w r,
    interval w = Some r ->
    (forall sel url,
       activation r = Some (sel, url) ->
       inflight (step w Tick) =
         (inflight w ++
          [mkCycle r (AwaitGetFilesFromFolder url
                        (afterFetch sel (r_fileSearchApiKey r)))])%list /\
       cyclesInFlight (Client.id sel) (step w Tick) =
         S (cyclesInFlight (Client.id sel) w)) /\
    (activation r = None ->
       inflight (step w Tick) = inflight w /\
       isSyncing (appState (step w Tick)) = false).
Proof.
  intros w r Htimer. simpl. rewrite Htimer. unfold callSyncAndPoll. split.
  - intros sel url Hact. rewrite (syncAndPoll_active _ _ _ Hact). simpl.
    split; [reflexivity|].
    rewrite cyclesInFlight_app. cbn [filter]. unfold startedForClient at 1.
    cbn [startedFor]. apply activation_spec in Hact as (-> & _).
    rewrite String.eqb_refl. unfold cyclesInFlight. simpl. lia.
  - intro Hidle. rewrite (syncAndPoll_idle _ Hidle). simpl.
    now rewrite app_nil_r.
Qed.

Lemma tick_starts_cycle_regardless_witness :
  let w := run initialWorld Sample.setup in
  cyclesInFlight "client_1000" w = 1 /\
  cyclesInFlight "client_1000" (step w Tick) = 2.
Proof.
  split; [reflexivity|].
  destruct (tick_starts_cycle_regardless (run initialWorld Sample.setup)
              Sample.acmeRender eq_refl) as [Hactive _].
  destruct (Hactive Sample.acme "https://drive.example/acme" eq_refl) as [_ Hcount].
  exact Hcount.
Defined.

(** * Further properties of the component *)

(** ** Adding a client *)

Lemma trimStart_allWhiteSpace : forall s,
  allWhiteSpace (trimStart s) = allWhiteSpace s.
Proof.
  induction s as [|a rest IH]; simpl; [reflexivity|].
  destruct (isWhiteSpace a) eqn:Ha; simpl; [exact IH | now rewrite Ha].
Qed.

Lemma trimEnd_empty_iff : forall s,
  trimEnd s = "" <-> allWhiteSpace s = true.
Proof.
  induction s as [|a rest IH]; simpl; [tauto|].
  destruct (trimEnd rest) as [|b kept].
  - destruct (isWhiteSpace a); simpl.
    + split; [intros _; now apply IH | reflexivity].
    + split; discriminate.
  - split; [discriminate|]. intro H. apply andb_true_iff in H as [_ H].
    apply IH in H. discriminate.
Qed.

Lemma trim_empty_iff : forall s, trim s = "" <-> allWhiteSpace s = true.
Proof.
  intro s. unfold trim. rewrite trimEnd_empty_iff.
  now rewrite trimStart_allWhiteSpace.
Qed.

Lemma truthy_trim : forall s, truthy (trim s) = negb (allWhiteSpace s).
Proof.
  intro s. destruct (allWhiteSpace s) eqn:E; simpl.
  - apply trim_empty_iff in E. now rewrite E.
  - destruct (trim s) eqn:T; [|reflexivity].
    apply trim_empty_iff in T. congruence.
Qed.

(** X1: a name that is empty or made of white space only adds no
    client and selects nothing: the state is returned as it is. *)
Theorem blank_name_adds_nothing :
  forall name now uuid s,
    allWhiteSpace name = true ->
    handleAddClient name now uuid s = s.
Proof.
  intros name now uuid s Hblank. unfold handleAddClient.
  now rewrite truthy_trim, Hblank.
Qed.

Lemma blank_name_adds_nothing_witness :
  handleAddClient "  " 1000 "uuid-1" Sample.acmeState = Sample.acmeState /\
  handleAddClient "" 1000 "uuid-1" Sample.acmeState = Sample.acmeState.
Proof.
  split.
  - apply (blank_name_adds_nothing "  " 1000%N "uuid-1" Sample.acmeState). reflexivity.
  - apply (blank_name_adds_nothing "" 1000%N "uuid-1" Sample.acmeState). reflexivity.
Defined.

Lemma find_app_last : forall {X} (p : X -> bool) (l : list X) (x : X),
  find p (l ++ [x]) =
  match find p l with
  | Some y => Some y
  | None => if p x then Some x else None
  end.
Proof.
  intros X p l x. induction l as [|y l IH]; simpl; [reflexivity|].
  now destruct (p y).
Qed.

(** X2: a name that is not blank appends one client, with the name as
    typed (not trimmed), no files and no folder, after the clients
    already there, and writes nothing but the selection.  The client
    then selected is the new one unless an older client already carries
    the id built from the clock: [find] then returns the older one. *)
Theorem add_client_appends_and_selects :
  forall name now uuid s,
    allWhiteSpace name = false ->
    let newClient :=
      Client.mk ("client_" ++ numberToString now) name [] ("key_" ++ uuid) None in
    let s' := handleAddClient name now uuid s in
    clients s' = (clients s ++ [newClient])%list /\
    selectedClientId s' = Some (Client.id newClient) /\
    selectedClient s' =
      match find (fun c => String.eqb (Client.id c) (Client.id newClient)) (clients s) with
      | Some older => Some older
      | None => Some newClient
      end /\
    fileSearchApiKey s' = fileSearchApiKey s /\
    isGoogleDriveConnected s' = isGoogleDriveConnected s /\
    isSyncing s' = isSyncing s /\
    syncError s' = syncError s.
Proof.
  intros name now uuid s Hname newClient s'. subst s'.
  unfold handleAddClient. rewrite truthy_trim, Hname. simpl.
  repeat (split; [reflexivity|]).
  split; [|repeat split].
  unfold selectedClient. simpl. rewrite find_app_last.
  destruct (find _ (clients s)); [reflexivity|].
  simpl. now rewrite String.eqb_refl.
Qed.

Lemma add_client_appends_and_selects_witness :
  let s' := handleAddClient " Bolt " 2000 "uuid-2" Sample.acmeState in
  map Client.name (clients s') = ["Acme"; " Bolt "] /\
  selectedClient s' = Some (Client.mk "client_2000" " Bolt " [] "key_uuid-2" None).
Proof.
  destruct (add_client_appends_and_selects " Bolt " 2000%N "uuid-2" Sample.acmeState eq_refl)
    as (Hclients & _ & Hselected & _).
  split.
  - cbv zeta. rewrite Hclients. reflexivity.
  - exact Hselected.
Defined.

Lemma addClients_distinct_clock_witness :
  NoDup (map Client.id
           (clients (addClients [("Acme", 1000%N, "u"); ("  ", 1500%N, "v");
                                 ("Bolt", 2000%N, "u")] initialState))).
Proof.
  apply (addClients_distinct_clock
           [("Acme", 1000%N, "u"); ("  ", 1500%N, "v"); ("Bolt", 2000%N, "u")]).
  simpl. repeat constructor; simpl; intuition discriminate.
Defined.

(** ** Setting the folder of a client *)

(** X4: when no client has the id, [handleSetFolderUrl] changes
    nothing. *)
Theorem set_folder_unknown_id :
  forall clientId url s,
    Forall (fun c => Client.id c <> clientId) (clients s) ->
    handleSetFolderUrl clientId url s = s.
Proof.
  intros clientId url [cs sel key conn syncing err] Habsent.
  unfold handleSetFolderUrl, setClients. simpl in *. f_equal.
  induction Habsent as [|c rest Hc _ IH]; simpl; [reflexivity|].
  apply String.eqb_neq in Hc. now rewrite Hc, IH.
Qed.

Lemma set_folder_unknown_id_witness :
  handleSetFolderUrl "client_3000" "https://drive.example/x" More.twoClients =
  More.twoClients.
Proof.
  apply (set_folder_unknown_id "client_3000" "https://drive.example/x" More.twoClients).
  repeat constructor; discriminate.
Defined.

(** X5: [handleSetFolderUrl] rewrites the folder of every client with
    the id and nothing else: ids, names, keys and files of all clients
    stay, the other clients keep their folder, and so do the selection,
    the key, the connection, [isSyncing] and [syncError].  Setting the
    folder of one id twice keeps the last url. *)
Theorem set_folder_touches_only_folder :
  forall clientId url s,
    let s' := handleSetFolderUrl clientId url s in
    map identity (clients s') = map identity (clients s) /\
    map Client.files (clients s') = map Client.files (clients s) /\
    map Client.googleDriveFolderUrl (clients s') =
      map (fun c => if String.eqb (Client.id c) clientId
                    then Some url else Client.googleDriveFolderUrl c) (clients s) /\
    setClients (fun _ => clients s) s' = s /\
    (forall url0,
       handleSetFolderUrl clientId url (handleSetFolderUrl clientId url0 s) = s').
Proof.
  intros clientId url [cs sel key conn syncing err]. simpl.
  unfold handleSetFolderUrl, setClients. simpl.
  split; [|split; [|split; [|split; [reflexivity|]]]].
  - rewrite map_map. apply map_ext. intro c.
    now destruct (String.eqb (Client.id c) clientId).
  - rewrite map_map. apply map_ext. intro c.
    now destruct (String.eqb (Client.id c) clientId).
  - rewrite map_map. apply map_ext. intro c.
    now destruct (String.eqb (Client.id c) clientId).
  - intro url0. f_equal. rewrite map_map. apply map_ext. intro c.
    destruct (String.eqb (Client.id c) clientId) eqn:E; simpl; now rewrite E.
Qed.

(** X6: a folder set while a cycle is in flight and the two
    [setClients] of that cycle commute: the optimistic replacement and
    the commit keep the folder set in between, and the folder update
    keeps the files they installed. *)
Theorem set_folder_commutes_with_cycle_updates :
  forall clientId url sel driveFiles indexedFiles s,
    handleSetFolderUrl clientId url (setClients (markSyncing sel driveFiles) s) =
      setClients (markSyncing sel driveFiles) (handleSetFolderUrl clientId url s) /\
    handleSetFolderUrl clientId url (setClients (commitIndexed sel indexedFiles) s) =
      setClients (commitIndexed sel indexedFiles) (handleSetFolderUrl clientId url s).
Proof.
  intros clientId url sel driveFiles indexedFiles [cs selId key conn syncing err].
  unfold handleSetFolderUrl, setClients, markSyncing, commitIndexed. simpl.
  split; f_equal; rewrite !map_map; apply map_ext; intro c;
    destruct (String.eqb (Client.id c) clientId) eqn:Eid,
             (String.eqb (Client.id c) (Client.id sel)) eqn:Esel;
    simpl; rewrite ?Eid, ?Esel; reflexivity.
Qed.

(** ** The guard and the outcome of a call of [syncAndPoll] *)

Lemma activation_none_iff : forall r,
  activation r = None <->
  r_selectedClient r = None \/
  (exists sel, r_selectedClient r = Some sel /\
     (Client.googleDriveFolderUrl sel = None \/
      Client.googleDriveFolderUrl sel = Some "")) \/
  r_isGoogleDriveConnected r = false \/
  allWhiteSpace (r_fileSearchApiKey r) = true.
Proof.
  intro r. unfold activation. rewrite truthy_trim, negb_involutive.
  destruct (r_selectedClient r) as [sel|]; [|tauto].
  destruct (Client.googleDriveFolderUrl sel) as [[|a url]|] eqn:Hurl; simpl.
  - split; [intros _|reflexivity]. right. left. exists sel. auto.
  - destruct (r_isGoogleDriveConnected r), (allWhiteSpace (r_fileSearchApiKey r));
      simpl; split; auto; try discriminate.
    intros [H|[(sel' & Hsel & [H|H])|[H|H]]]; try discriminate.
    + injection Hsel as <-. congruence.
    + injection Hsel as <-. congruence.
  - split; [intros _|reflexivity]. right. left. exists sel. auto.
Qed.

(** X7: with no client selected, or a selected client whose folder is
    unset or empty, or the drive not connected, or a key that is empty
    or white space only, a call of [syncAndPoll] calls no collaborator:
    it clears [isSyncing], returns, and leaves the clients and
    [syncError], even a message of an earlier call, as they were. *)
Theorem guard_failure_calls_nothing :
  forall r s,
    r_selectedClient r = None \/
    (exists sel, r_selectedClient r = Some sel /\
       (Client.googleDriveFolderUrl sel = None \/
        Client.googleDriveFolderUrl sel = Some "")) \/
    r_isGoogleDriveConnected r = false \/
    allWhiteSpace (r_fileSearchApiKey r) = true ->
    advance (syncAndPoll r) s = (setIsSyncing false s, Return (Fulfilled tt)) /\
    (forall fetched synced answered,
       let s' := fst (complete fetched synced answered (syncAndPoll r) s) in
       clients s' = clients s /\ syncError s' = syncError s /\ isSyncing s' = false).
Proof.
  intros r s Hfail. apply activation_none_iff in Hfail.
  rewrite (syncAndPoll_idle _ Hfail). simpl. auto.
Qed.

Lemma guard_failure_calls_nothing_witness :
  advance (syncAndPoll More.blankKeyRender) Sample.acmeState =
    (setIsSyncing false Sample.acmeState, Return (Fulfilled tt)) /\
  syncError (fst (complete (Fulfilled [Sample.report]) (Fulfilled []) (Fulfilled "")
                    (syncAndPoll More.blankKeyRender) Sample.acmeState))
    = Some "quota exceeded".
Proof.
  destruct (guard_failure_calls_nothing More.blankKeyRender Sample.acmeState)
    as [Hadvance Hrun].
  - right. right. right. reflexivity.
  - split; [exact Hadvance|].
    apply (Hrun (Fulfilled [Sample.report]) (Fulfilled []) (Fulfilled "")).
Defined.

(** X8: a call of [syncAndPoll] never rejects and always ends with
    [isSyncing] cleared, whatever the guard decides and however the
    collaborators settle; it never writes the selection, the key or
    the connection. *)
Theorem syncAndPoll_always_settles :
  forall r fetched synced answered s,
    let result := complete fetched synced answered (syncAndPoll r) s in
    snd result = Fulfilled tt /\
    isSyncing (fst result) = false /\
    selectedClientId (fst result) = selectedClientId s /\
    fileSearchApiKey (fst result) = fileSearchApiKey s /\
    isGoogleDriveConnected (fst result) = isGoogleDriveConnected s.
Proof.
  intros r fetched synced answered s. unfold syncAndPoll.
  destruct (activation r) as [[sel url]|]; simpl; auto.
  destruct fetched as [driveFiles|e]; simpl; auto.
  destruct (changeDetected (Client.files sel) driveFiles); simpl; auto.
  destruct synced; simpl; auto.
Qed.



Lemma selectedClient_replaced : forall s sel files cs,
  selectedClient s = Some sel ->
  (forall id, find (fun c => String.eqb (Client.id c) id) cs =
     option_map (fun c => if String.eqb (Client.id c) (Client.id sel)
                          then Client.withFiles c files else c)
                (find (fun c => String.eqb (Client.id c) id) (clients s))) ->
  selectedClient (setClients (fun _ => cs) s) = Some (Client.withFiles sel files).
Proof.
  intros s sel files cs Hsel Hfind. unfold selectedClient in *. simpl.
  destruct (selectedClientId s) as [id|]; [|discriminate].
  rewrite Hfind, Hsel. simpl. now rewrite String.eqb_refl.
Qed.

(** X10: a detected change shows at once.  When the closure is that of
    the current render, the continuation of the listing replaces the
    files of the selected client by the placeholders, which differ from
    what it had, and only then awaits the index, called with the client
    as the closure holds it (its former files), the listing and the
    key. *)
Theorem detected_change_replaces_files :
  forall s sel url driveFiles,
    activation (render s) = Some (sel, url) ->
    changeDetected (Client.files sel) driveFiles = true ->
    let (s', t) := advance (afterFetch sel (fileSearchApiKey s) (Fulfilled driveFiles)) s in
    t = AwaitSyncClientFiles sel driveFiles (fileSearchApiKey s) (afterSync sel) /\
    selectedClient s' = Some (Client.withFiles sel (map placeholder driveFiles)) /\
    selectedClient s' <> selectedClient s /\
    clients s' <> clients s.
Proof.
  intros s sel url driveFiles Hact Hchanged.
  rewrite (afterFetch_changed _ _ _ _ Hchanged).
  apply activation_spec in Hact as (Hsel & _). simpl in Hsel.
  assert (Hnew : selectedClient (setClients (markSyncing sel driveFiles) s) =
                 Some (Client.withFiles sel (map placeholder driveFiles))).
  { apply (selectedClient_replaced s sel (map placeholder driveFiles)
             (markSyncing sel driveFiles (clients s)) Hsel).
    intro id. apply find_replace_files. }
  assert (Hdiff : selectedClient (setClients (markSyncing sel driveFiles) s) <>
                  selectedClient s).
  { rewrite Hnew, Hsel. intro Heq. injection Heq as Heq.
    apply changeDetected_true_iff in Hchanged. apply Hchanged.
    rewrite <- Heq at 1. simpl. apply fingerprint_placeholder. }
  split; [reflexivity|]. split; [exact Hnew|]. split; [exact Hdiff|].
  intro Heq. apply Hdiff. unfold selectedClient. simpl in *. now rewrite Heq.
Qed.

Lemma detected_change_replaces_files_witness :
  selectedClient
    (fst (advance (afterFetch Sample.acme "secret" (Fulfilled [Sample.report]))
            Sample.acmeState))
  = Some (Client.withFiles Sample.acme [placeholder Sample.report]).
Proof.
  exact (proj1 (proj2 (detected_change_replaces_files Sample.acmeState Sample.acme
                         "https://drive.example/acme" [Sample.report]
                         eq_refl eq_refl))).
Defined.

(** X11: a call by the closure of the current render that detects a
    change and whose index sync fulfils ends with the selected client
    holding exactly the returned files, [syncError] [null] and
    [isSyncing] cleared; every client with another id is where and what
    it was. *)
Theorem successful_cycle_commits :
  forall s sel url driveFiles indexedFiles answered,
    activation (render s) = Some (sel, url) ->
    changeDetected (Client.files sel) driveFiles = true ->
    let s' := fst (complete (Fulfilled driveFiles) (Fulfilled indexedFiles) answered
                     (syncAndPoll (render s)) s) in
    selectedClient s' = Some (Client.withFiles sel indexedFiles) /\
    syncError s' = None /\
    isSyncing s' = false /\
    length (clients s') = length (clients s) /\
    (forall j c, nth_error (clients s) j = Some c ->
       Client.id c <> Client.id sel ->
       nth_error (clients s') j = Some c).
Proof.
  intros s sel url driveFiles indexedFiles answered Hact Hchanged s'.
  assert (Hclients : clients s' =
            commitIndexed sel indexedFiles (markSyncing sel driveFiles (clients s))).
  { subst s'. now rewrite syncAndPoll_clients, Hact, Hchanged. }
  destruct (syncAndPoll_keeps_settings (render s) (Fulfilled driveFiles)
              (Fulfilled indexedFiles) answered s) as (Hid & _).
  fold s' in Hid.
  split; [|split; [|split; [|split]]].
  - pose proof Hact as Hsel. apply activation_spec in Hsel as (Hsel & _).
    simpl in Hsel. unfold selectedClient in *. rewrite Hid, Hclients.
    destruct (selectedClientId s) as [id|]; [|discriminate].
    unfold commitIndexed, markSyncing. rewrite !find_replace_files, Hsel. simpl.
    rewrite String.eqb_refl. simpl. now rewrite String.eqb_refl.
  - subst s'. rewrite (syncAndPoll_active _ _ _ Hact). simpl.
    now rewrite Hchanged.
  - subst s'. rewrite (syncAndPoll_active _ _ _ Hact). simpl.
    now rewrite Hchanged.
  - rewrite Hclients. unfold commitIndexed, markSyncing. now rewrite !length_map.
  - intros j c Hj Hother. apply String.eqb_neq in Hother.
    rewrite Hclients, commitIndexed_nth, markSyncing_nth, Hj. simpl.
    rewrite Hother. simpl. now rewrite Hother.
Qed.

Lemma successful_cycle_commits_witness :
  let s' := fst (complete (Fulfilled [Sample.report]) (Fulfilled [Sample.indexedReport])
                   (Fulfilled "") (syncAndPoll (render Sample.acmeState))
                   Sample.acmeState) in
  selectedClient s' = Some (Client.withFiles Sample.acme [Sample.indexedReport]) /\
  syncError s' = None.
Proof.
  destruct (successful_cycle_commits Sample.acmeState Sample.acme
              "https://drive.example/acme" [Sample.report] [Sample.indexedReport]
              (Fulfilled "") eq_refl eq_refl) as (Hsel & Herr & _).
  split; assumption.
Defined.

(** ** What the change check sees *)

Lemma fingerprint_same_pairs :
  forall {A B} `{FileLike A} `{FileLike B} (stored : list A) (remote : list B),
    map idContent stored = map idContent remote ->
    fingerprint stored = fingerprint remote.
Proof.
  intros A B HA HB. induction stored as [|f fs IH]; intros [|g gs] Hpairs;
    simpl in Hpairs; try discriminate; [reflexivity|].
  injection Hpairs as Hid Hcontent Hrest.
  rewrite !fingerprint_cons, Hid, Hcontent. f_equal. now apply IH.
Qed.

(** X12: the change check reads ids and contents only.  A listing with
    the same (id, content) pairs in the same order as the stored files
    is no change, whatever the summaries and statuses of the stored
    files: files left as [syncing] placeholders or marked [error] are
    not synced again while the folder stays as it is. *)
Theorem same_pairs_no_change :
  forall (stored : list SyncedFile.t) (remote : list DriveFile.t),
    map idContent stored = map idContent remote ->
    changeDetected stored remote = false.
Proof.
  intros stored remote Hpairs. apply changeDetected_false_iff.
  now apply fingerprint_same_pairs.
Qed.

Lemma same_pairs_no_change_witness :
  changeDetected
    [SyncedFile.mk "1" "a" "..." syncing; SyncedFile.mk "2" "b" "failed" error]
    [Sample.report; Sample.notes] = false.
Proof.
  apply (same_pairs_no_change
           [SyncedFile.mk "1" "a" "..." syncing; SyncedFile.mk "2" "b" "failed" error]
           [Sample.report; Sample.notes]).
  reflexivity.
Defined.

(** X13: when every id has one length and every content has one length,
    not both zero, the change check is exact: a change is detected if
    and only if the sequences of (id, content) pairs differ. *)
Theorem fixed_width_detection_exact :
  forall (stored : list SyncedFile.t) (remote : list DriveFile.t) n m,
    0 < n + m ->
    Forall (hasWidth n m) stored ->
    Forall (hasWidth n m) remote ->
    (changeDetected stored remote = true <->
     map idContent stored <> map idContent remote).
Proof.
  intros stored remote n m Hwidth Hs Hr. rewrite changeDetected_true_iff. split.
  - intros Hprint Hpairs. apply Hprint. now apply fingerprint_same_pairs.
  - intros Hpairs Hprint. apply Hpairs.
    exact (fingerprint_fixed_width_inj n m Hwidth stored remote Hs Hr Hprint).
Qed.

Lemma fixed_width_detection_exact_witness :
  changeDetected [Sample.indexedReport] [Sample.report; Sample.notes] = true /\
  changeDetected [Sample.indexedReport] [Sample.report] = false.
Proof.
  split.
  - apply (fixed_width_detection_exact [Sample.indexedReport]
             [Sample.report; Sample.notes] 1 1);
      [lia | repeat constructor | repeat constructor | discriminate].
  - destruct (changeDetected [Sample.indexedReport] [Sample.report]) eqn:E;
      [|reflexivity].
    apply (fixed_width_detection_exact [Sample.indexedReport] [Sample.report] 1 1)
      in E; [ now elim E | lia | repeat constructor | repeat constructor ].
Defined.

(** X14: the fingerprint has no separators, so it does not see where a
    file or an id ends: a file whose content continues with the id and
    content of a second file has the fingerprint of the two files, and
    moving a prefix of the content to the end of the id keeps it. *)
Theorem fingerprint_blind_to_boundaries :
  forall (id1 content1 id2 content2 moved : string) (rest : list DriveFile.t),
    fingerprint (DriveFile.mk id1 (content1 ++ id2 ++ content2) :: rest) =
    fingerprint (DriveFile.mk id1 content1 :: DriveFile.mk id2 content2 :: rest) /\
    fingerprint (DriveFile.mk (id1 ++ moved) content1 :: rest) =
    fingerprint (DriveFile.mk id1 (moved ++ content1) :: rest).
Proof.
  intros. rewrite !fingerprint_cons. simpl. split.
  - now rewrite !append_assoc.
  - now rewrite !append_assoc.
Qed.

(** ** Polling an unchanged folder *)

Lemma poll_once_quiet : forall s driveFiles synced answered,
  (forall sel, selectedClient s = Some sel ->
     fingerprint (Client.files sel) = fingerprint driveFiles) ->
  let s1 := fst (complete (Fulfilled driveFiles) synced answered
                   (syncAndPoll (render s)) s) in
  clients s1 = clients s /\ selectedClient s1 = selectedClient s.
Proof.
  intros s driveFiles synced answered Hprint s1.
  destruct (syncAndPoll_keeps_settings (render s) (Fulfilled driveFiles)
              synced answered s) as (Hid & _).
  fold s1 in Hid.
  assert (Hclients : clients s1 = clients s).
  { subst s1. rewrite syncAndPoll_clients.
    destruct (activation (render s)) as [[sel url]|] eqn:Hact; [|reflexivity].
    apply activation_spec in Hact as (Hsel & _). simpl in Hsel.
    apply Hprint, changeDetected_false_iff in Hsel. now rewrite Hsel. }
  split; [exact Hclients|]. unfold selectedClient. now rewrite Hid, Hclients.
Qed.

Lemma pollRepeatedly_quiet : forall n s driveFiles synced,
  (forall sel, selectedClient s = Some sel ->
     fingerprint (Client.files sel) = fingerprint driveFiles) ->
  clients (pollRepeatedly n (Fulfilled driveFiles) synced s) = clients s /\
  selectedClient (pollRepeatedly n (Fulfilled driveFiles) synced s) = selectedClient s.
Proof.
  induction n as [|n IH]; intros s driveFiles synced Hprint; simpl; [auto|].
  destruct (poll_once_quiet s driveFiles synced (Fulfilled "") Hprint) as [Hc Hs].
  destruct (IH (fst (complete (Fulfilled driveFiles) synced (Fulfilled "")
                       (syncAndPoll (render s)) s)) driveFiles synced)
    as [Hc' Hs'].
  - intros sel Hsel. apply Hprint. now rewrite <- Hs.
  - split; congruence.
Qed.

(** X15: while the selected client's files have the fingerprint of what
    the folder lists, any number of polls in a row changes no client,
    however the index would settle. *)
Theorem unchanged_folder_never_mutates :
  forall n s driveFiles synced,
    (forall sel, selectedClient s = Some sel ->
       fingerprint (Client.files sel) = fingerprint driveFiles) ->
    clients (pollRepeatedly n (Fulfilled driveFiles) synced s) = clients s.
Proof.
  intros n s driveFiles synced Hprint.
  apply (pollRepeatedly_quiet n s driveFiles synced Hprint).
Qed.

Lemma unchanged_folder_never_mutates_witness :
  clients (pollRepeatedly 5 (Fulfilled [Sample.report]) (Fulfilled [])
             (handleSelectClient "client_1000" More.twoClients))
  = clients More.twoClients.
Proof.
  apply (unchanged_folder_never_mutates 5
           (handleSelectClient "client_1000" More.twoClients)
           [Sample.report] (Fulfilled [])).
  intros sel Hsel. injection Hsel as <-. reflexivity.
Defined.

(** X16: after a call whose index sync rejected, the selected client is
    stuck with the placeholders: as long as the folder lists the same
    files, no later poll detects a change, so the files stay [syncing]
    and the index is not tried again, even if it would now fulfil. *)
Theorem failed_sync_stays_syncing :
  forall s sel url driveFiles e n synced,
    activation (render s) = Some (sel, url) ->
    changeDetected (Client.files sel) driveFiles = true ->
    let failed := fst (complete (Fulfilled driveFiles) (Rejected e) (Fulfilled "")
                         (syncAndPoll (render s)) s) in
    let later := pollRepeatedly n (Fulfilled driveFiles) synced failed in
    selectedClient later = Some (Client.withFiles sel (map placeholder driveFiles)) /\
    clients later = clients failed.
Proof.
  intros s sel url driveFiles e n synced Hact Hchanged failed later.
  assert (Hsel : selectedClient failed =
                 Some (Client.withFiles sel (map placeholder driveFiles))).
  { destruct (syncAndPoll_keeps_settings (render s) (Fulfilled driveFiles)
                (Rejected e) (Fulfilled "") s) as (Hid & _).
    fold failed in Hid.
    assert (Hclients : clients failed = markSyncing sel driveFiles (clients s))
      by (subst failed; now rewrite syncAndPoll_clients, Hact, Hchanged).
    apply activation_spec in Hact as (Hcur & _). simpl in Hcur.
    unfold selectedClient in *. rewrite Hid, Hclients.
    destruct (selectedClientId s) as [id|]; [|discriminate].
    unfold markSyncing. rewrite find_replace_files, Hcur. simpl.
    now rewrite String.eqb_refl. }
  destruct (pollRepeatedly_quiet n failed driveFiles synced) as [Hc Hs].
  - intros sel' Hsel'. rewrite Hsel in Hsel'. injection Hsel' as <-.
    simpl. apply fingerprint_placeholder.
  - fold later in Hc, Hs. split; [now rewrite Hs | exact Hc].
Qed.

Lemma failed_sync_stays_syncing_witness :
  let failed := fst (complete (Fulfilled [Sample.report])
                       (Rejected (ErrorObject "quota exceeded")) (Fulfilled "")
                       (syncAndPoll (render Sample.acmeState)) Sample.acmeState) in
  selectedClient
    (pollRepeatedly 3 (Fulfilled [Sample.report]) (Fulfilled [Sample.indexedReport]) failed)
  = Some (Client.withFiles Sample.acme [placeholder Sample.report]).
Proof.
  exact (proj1 (failed_sync_stays_syncing Sample.acmeState Sample.acme
                  "https://drive.example/acme" [Sample.report]
                  (ErrorObject "quota exceeded") 3 (Fulfilled [Sample.indexedReport])
                  eq_refl eq_refl)).
Defined.

(** ** What the events do to the registry *)

Lemma callSyncAndPoll_appState : forall r w,
  clients (appState (callSyncAndPoll r w)) = clients (appState w) /\
  selectedClientId (appState (callSyncAndPoll r w)) = selectedClientId (appState w) /\
  fileSearchApiKey (appState (callSyncAndPoll r w)) = fileSearchApiKey (appState w) /\
  isGoogleDriveConnected (appState (callSyncAndPoll r w)) =
    isGoogleDriveConnected (appState w).
Proof.
  intros r w. unfold callSyncAndPoll, syncAndPoll.
  destruct (activation r) as [[sel url]|]; simpl; auto.
Qed.

(** The effect, the timer and the continuations of [syncAndPoll] write
    the clients in one way only: the files of the clients with the id of
    a cycle in flight are replaced. *)
Lemma cycle_event_effect : forall w e,
  reachable w ->
  isHandlerEvent e = false ->
  let s := appState w in
  let s' := appState (step w e) in
  selectedClientId s' = selectedClientId s /\
  fileSearchApiKey s' = fileSearchApiKey s /\
  isGoogleDriveConnected s' = isGoogleDriveConnected s /\
  (clients s' = clients s \/
   exists cy sel files,
     In cy (inflight w) /\
     r_selectedClient (startedFor cy) = Some sel /\
     clients s' =
       map (fun c => if String.eqb (Client.id c) (Client.id sel)
                     then Client.withFiles c files else c) (clients s)).
Proof.
  intros w e Hw He. pose proof (inflight_shape w Hw) as Hshape.
  destruct e; try discriminate; cbn [step].
  - unfold runEffect.
    destruct (r_selectedClient (render (appState w))) as [sel|]; [|simpl; auto].
    destruct (Client.googleDriveFolderUrl sel) as [url|]; [|simpl; auto].
    destruct (truthy url); [|simpl; auto].
    destruct (callSyncAndPoll_appState (render (appState w))
                (mkWorld (appState w) None (inflight w))) as (H1 & H2 & H3 & H4).
    simpl in *. auto.
  - destruct (interval w) as [r|]; [|simpl; auto].
    destruct (callSyncAndPoll_appState r w) as (H1 & H2 & H3 & H4). simpl. auto.
  - destruct (nth_error (inflight w) i) as [cy|] eqn:Hcy; [|simpl; auto].
    pose proof (nth_error_In _ _ Hcy) as Hin.
    assert (Hcs : cycleShape cy) by (eapply Forall_forall; eauto).
    destruct Hcs as [r sel url Hact | r sel url driveFiles Hact Hchanged];
      cbn [suspended]; [|simpl; auto].
    rewrite resumeCycle_appState.
    destruct fetched as [driveFiles|err]; [|simpl; auto].
    destruct (changeDetected (Client.files sel) driveFiles) eqn:Hchanged.
    + rewrite (afterFetch_changed _ _ _ _ Hchanged). simpl.
      repeat (split; [reflexivity|]). right.
      exists (mkCycle r (AwaitGetFilesFromFolder url (afterFetch sel (r_fileSearchApiKey r)))),
             sel, (map placeholder driveFiles).
      apply activation_spec in Hact as (Hsel & _). auto.
    + rewrite (afterFetch_unchanged _ _ _ _ Hchanged). simpl. auto.
  - destruct (nth_error (inflight w) i) as [cy|] eqn:Hcy; [|simpl; auto].
    pose proof (nth_error_In _ _ Hcy) as Hin.
    assert (Hcs : cycleShape cy) by (eapply Forall_forall; eauto).
    destruct Hcs as [r sel url Hact | r sel url driveFiles Hact Hchanged];
      cbn [suspended]; [simpl; auto|].
    rewrite resumeCycle_appState.
    destruct synced as [indexedFiles|err]; [|simpl; auto].
    rewrite afterSync_fulfilled. simpl.
    repeat (split; [reflexivity|]). right.
    exists (mkCycle r (AwaitSyncClientFiles sel driveFiles (r_fileSearchApiKey r)
                         (afterSync sel))), sel, indexedFiles.
    apply activation_spec in Hact as (Hsel & _). auto.
Qed.

Lemma map_identity_replace_files : forall sel files cs,
  map identity
    (map (fun c => if String.eqb (Client.id c) (Client.id sel)
                   then Client.withFiles c files else c) cs) =
  map identity cs.
Proof.
  intros sel files cs. rewrite map_map. apply map_ext. intro c.
  now destruct (String.eqb (Client.id c) (Client.id sel)).
Qed.

Lemma step_keeps_identities : forall w e,
  reachable w ->
  exists added,
    map identity (clients (appState (step w e))) =
    (map identity (clients (appState w)) ++ added)%list.
Proof.
  intros w e Hw. destruct (isHandlerEvent e) eqn:He.
  - destruct e; try discriminate; simpl.
    + unfold handleAddClient. destruct (truthy (trim name)); simpl.
      * rewrite map_app. eexists. reflexivity.
      * exists []. now rewrite app_nil_r.
    + exists []. now rewrite app_nil_r.
    + exists []. rewrite app_nil_r, map_map. apply map_ext. intro c.
      now destruct (String.eqb (Client.id c) clientId).
    + exists []. now rewrite app_nil_r.
    + exists []. now rewrite app_nil_r.
  - destruct (cycle_event_effect w e Hw He) as (_ & _ & _ & [Hsame | Hrepl]).
    + exists []. now rewrite app_nil_r, Hsame.
    + destruct Hrepl as (cy & sel & files & _ & _ & Hclients).
      exists []. now rewrite app_nil_r, Hclients, map_identity_replace_files.
Qed.

(** X17: the registry only grows.  Whatever happens after a reachable
    state (handler calls, effect runs, ticks, settlements, in any
    order), the clients that were there are still there, at the same
    places and with the same id, name and key; new clients come
    after them. *)
Theorem registry_only_grows :
  forall trace w,
    reachable w ->
    exists added,
      map identity (clients (appState (run w trace))) =
      (map identity (clients (appState w)) ++ added)%list.
Proof.
  induction trace as [|e rest IH]; intros w Hw; simpl.
  - exists []. now rewrite app_nil_r.
  - destruct (step_keeps_identities w e Hw) as [first Hfirst].
    destruct (IH (step w e) (reachable_step w e Hw)) as [then_ Hthen].
    exists (first ++ then_)%list. now rewrite Hthen, Hfirst, app_assoc.
Qed.

Lemma registry_only_grows_witness :
  exists added,
    map identity (clients (appState (run initialWorld Sample.switchedAway))) =
    (map identity (clients (appState (run initialWorld Sample.setup))) ++ added)%list.
Proof.
  unfold Sample.switchedAway, run. rewrite fold_left_app.
  apply (registry_only_grows
           [ FetchSettles 0 (Fulfilled [Sample.report]); RunEffect;
             AddClient "Bolt" 2000 "uuid-2"; RunEffect ]
           (fold_left step Sample.setup initialWorld)).
  apply (reachable_run Sample.setup). constructor.
Defined.

(** X18: the selection, the key and the connection are written by the
    handlers only: no run of the effect, tick of the timer or
    continuation of [syncAndPoll] changes them. *)
Theorem settings_written_by_handlers_only :
  forall w e,
    reachable w ->
    isHandlerEvent e = false ->
    selectedClientId (appState (step w e)) = selectedClientId (appState w) /\
    fileSearchApiKey (appState (step w e)) = fileSearchApiKey (appState w) /\
    isGoogleDriveConnected (appState (step w e)) = isGoogleDriveConnected (appState w).
Proof.
  intros w e Hw He.
  destruct (cycle_event_effect w e Hw He) as (H1 & H2 & H3 & _). auto.
Qed.

Lemma settings_written_by_handlers_only_witness :
  let w := run initialWorld Sample.switchedAway in
  selectedClientId
    (appState (step w (SyncSettles 0 (Fulfilled [Sample.indexedReport]))))
  = Some "client_2000".
Proof.
  cbv zeta.
  rewrite (proj1 (settings_written_by_handlers_only
                    (run initialWorld Sample.switchedAway)
                    (SyncSettles 0 (Fulfilled [Sample.indexedReport]))
                    (reachable_run Sample.switchedAway initialWorld reachable_initial)
                    eq_refl)).
  reflexivity.
Defined.

Lemma no_cycle_other_id : forall id w cy sel,
  cyclesInFlight id w = 0 ->
  In cy (inflight w) ->
  r_selectedClient (startedFor cy) = Some sel ->
  String.eqb id (Client.id sel) = false.
Proof.
  intros id w cy sel Hnone Hin Hsel. unfold cyclesInFlight in Hnone.
  apply length_zero_iff_nil in Hnone.
  destruct (String.eqb id (Client.id sel)) eqn:E; [|reflexivity].
  assert (Hfiltered : In cy (filter (startedForClient id) (inflight w))).
  { apply filter_In. split; [exact Hin|]. unfold startedForClient.
    rewrite Hsel. now rewrite String.eqb_sym. }
  rewrite Hnone in Hfiltered. contradiction.
Qed.

(** X19: files are written by cycles only, and only for their own
    client id: across any event, a client with no cycle in flight for
    its id stays at its place with the same files, id, name and key. *)
Theorem files_change_only_with_cycle :
  forall w e j c,
    reachable w ->
    nth_error (clients (appState w)) j = Some c ->
    cyclesInFlight (Client.id c) w = 0 ->
    exists c',
      nth_error (clients (appState (step w e))) j = Some c' /\
      Client.files c' = Client.files c /\
      identity c' = identity c.
Proof.
  intros w e j c Hw Hj Hnone. destruct (isHandlerEvent e) eqn:He.
  - destruct e; try discriminate; simpl; try solve [exists c; auto].
    + unfold handleAddClient. destruct (truthy (trim name)); simpl.
      * exists c. split; [|auto]. rewrite nth_error_app1; [exact Hj|].
        apply nth_error_Some. congruence.
      * exists c. auto.
    + rewrite nth_error_map, Hj. simpl.
      destruct (String.eqb (Client.id c) clientId); eexists; split; reflexivity || auto.
  - destruct (cycle_event_effect w e Hw He) as (_ & _ & _ & [Hsame | Hrepl]).
    + exists c. rewrite Hsame. auto.
    + destruct Hrepl as (cy & sel & files & Hin & Hsel & Hclients).
      exists c. rewrite Hclients, nth_error_map, Hj. simpl.
      now rewrite (no_cycle_other_id _ _ _ _ Hnone Hin Hsel).
Qed.

Lemma files_change_only_with_cycle_witness :
  let w := run initialWorld Sample.switchedAway in
  exists c',
    nth_error (clients (appState (step w (SyncSettles 0 (Fulfilled [Sample.indexedReport])))))
              1 = Some c' /\
    Client.files c' = [] /\
    identity c' = ("client_2000", "Bolt", "key_uuid-2").
Proof.
  apply (files_change_only_with_cycle (run initialWorld Sample.switchedAway)
           (SyncSettles 0 (Fulfilled [Sample.indexedReport])) 1
           (Client.mk "client_2000" "Bolt" [] "key_uuid-2" None)).
  - apply reachable_run. constructor.
  - reflexivity.
  - reflexivity.
Defined.

(** ** When the collaborators are called *)

(** X20: the collaborators are called within the guard only.  Every
    cycle in flight in a reachable state was started by a closure with
    a selected client whose folder url is set and not empty, with the
    drive connected and a key that is not blank; it waits for the
    listing of exactly that url, or for the index sync of a listing in
    which a change was detected, called with that client and key. *)
Theorem collaborators_called_within_guard :
  forall w cy,
    reachable w ->
    In cy (inflight w) ->
    exists sel url,
      r_selectedClient (startedFor cy) = Some sel /\
      Client.googleDriveFolderUrl sel = Some url /\
      url <> "" /\
      r_isGoogleDriveConnected (startedFor cy) = true /\
      allWhiteSpace (r_fileSearchApiKey (startedFor cy)) = false /\
      (suspended cy =
         AwaitGetFilesFromFolder url
           (afterFetch sel (r_fileSearchApiKey (startedFor cy))) \/
       exists driveFiles,
         changeDetected (Client.files sel) driveFiles = true /\
         suspended cy =
           AwaitSyncClientFiles sel driveFiles
             (r_fileSearchApiKey (startedFor cy)) (afterSync sel)).
Proof.
  intros w cy Hw Hin.
  assert (Hshape : cycleShape cy).
  { eapply Forall_forall; [apply inflight_shape; exact Hw | exact Hin]. }
  destruct Hshape as [r sel url Hact | r sel url driveFiles Hact Hchanged];
    exists sel, url; apply activation_spec in Hact as (H1 & H2 & H3 & H4 & H5);
    simpl; repeat (split; [assumption|]).
  - split; [|left; reflexivity].
    destruct (allWhiteSpace (r_fileSearchApiKey r)) eqn:E; [|reflexivity].
    apply trim_empty_iff in E. contradiction.
  - split; [|right; exists driveFiles; auto].
    destruct (allWhiteSpace (r_fileSearchApiKey r)) eqn:E; [|reflexivity].
    apply trim_empty_iff in E. contradiction.
Qed.

Lemma collaborators_called_within_guard_witness :
  exists sel url,
    r_selectedClient Sample.acmeRender = Some sel /\
    Client.googleDriveFolderUrl sel = Some url /\
    url <> "" /\
    r_isGoogleDriveConnected Sample.acmeRender = true /\
    allWhiteSpace (r_fileSearchApiKey Sample.acmeRender) = false /\
    (AwaitSyncClientFiles Sample.acme [Sample.report] "secret" (afterSync Sample.acme) =
       AwaitGetFilesFromFolder url (afterFetch sel "secret") \/
     exists driveFiles,
       changeDetected (Client.files sel) driveFiles = true /\
       AwaitSyncClientFiles Sample.acme [Sample.report] "secret" (afterSync Sample.acme) =
         AwaitSyncClientFiles sel driveFiles "secret" (afterSync sel)).
Proof.
  apply (collaborators_called_within_guard
           (run initialWorld Sample.switchedAway)
           (mkCycle Sample.acmeRender
              (AwaitSyncClientFiles Sample.acme [Sample.report] "secret"
                 (afterSync Sample.acme)))).
  - apply reachable_run. constructor.
  - left. reflexivity.
Defined.

(** ** The effect *)

(** X21: a run of the effect looks at the selected client and its
    folder only.  With a folder url that is not empty it arms the timer
    with the closure of the current render, connected or not, key or
    no key, and calls that closure once: a new cycle when the guard
    passes, [isSyncing] cleared when it does not.  With no selected
    client, or no folder, it stops the timer and writes no state, so
    [isSyncing] is not cleared.  In both cases the cycles in flight
    stay in flight. *)
Theorem effect_arms_timer_on_folder :
  forall w,
    let r := render (appState w) in
    (forall sel url,
       selectedClient (appState w) = Some sel ->
       Client.googleDriveFolderUrl sel = Some url ->
       url <> "" ->
       interval (runEffect w) = Some r /\
       (activation r = None ->
          inflight (runEffect w) = inflight w /\
          appState (runEffect w) = setIsSyncing false (appState w)) /\
       (activation r = Some (sel, url) ->
          inflight (runEffect w) =
            (inflight w ++
             [mkCycle r (AwaitGetFilesFromFolder url
                           (afterFetch sel (fileSearchApiKey (appState w))))])%list)) /\
    (selectedClient (appState w) = None \/
     (exists sel, selectedClient (appState w) = Some sel /\
        (Client.googleDriveFolderUrl sel = None \/
         Client.googleDriveFolderUrl sel = Some "")) ->
     runEffect w = mkWorld (appState w) None (inflight w)).
Proof.
  intros w r. split.
  - intros sel url Hsel Hurl Hne. unfold runEffect. fold r.
    assert (Hr : r_selectedClient r = Some sel) by exact Hsel.
    rewrite Hr, Hurl. apply truthy_true_iff in Hne. rewrite Hne.
    unfold callSyncAndPoll. cbn [appState interval inflight].
    split; [now destruct (advance (syncAndPoll r) (appState w))|]. split.
    + intro Hidle. rewrite (syncAndPoll_idle _ Hidle). simpl.
      now rewrite app_nil_r.
    + intro Hact. rewrite (syncAndPoll_active _ _ _ Hact). reflexivity.
  - unfold runEffect. fold r. change (r_selectedClient r) with (selectedClient (appState w)).
    intros [Hnone | (sel & Hsel & [Hurl | Hurl])].
    + now rewrite Hnone.
    + now rewrite Hsel, Hurl.
    + now rewrite Hsel, Hurl.
Qed.

Lemma effect_arms_timer_on_folder_witness :
  let w := mkWorld (setIsGoogleDriveConnected false Sample.acmeState) None [] in
  interval (runEffect w) = Some (render (appState w)) /\
  inflight (runEffect w) = [] /\
  runEffect (mkWorld More.twoClients (Some Sample.acmeRender) []) =
    mkWorld More.twoClients None [].
Proof.
  destruct (effect_arms_timer_on_folder
              (mkWorld (setIsGoogleDriveConnected false Sample.acmeState) None []))
    as [Harmed _].
  destruct (Harmed Sample.acme "https://drive.example/acme" eq_refl eq_refl)
    as (Htimer & Hidle & _); [discriminate|].
  split; [exact Htimer|]. split; [apply (Hidle eq_refl)|].
  apply (effect_arms_timer_on_folder (mkWorld More.twoClients (Some Sample.acmeRender) [])).
  right. exists More.bolt. split; [reflexivity | left; reflexivity].
Defined.

Lemma find_set_folder : forall clientId url id cs,
  find (fun c => String.eqb (Client.id c) id)
       (map (fun c => if String.eqb (Client.id c) clientId
                      then Client.withFolderUrl c url else c) cs) =
  option_map (fun c => if String.eqb (Client.id c) clientId
                       then Client.withFolderUrl c url else c)
             (find (fun c => String.eqb (Client.id c) id) cs).
Proof.
  intros clientId url id cs. induction cs as [|c rest IH]; simpl; [reflexivity|].
  destruct (String.eqb (Client.id c) clientId) eqn:Hc; simpl;
    destruct (String.eqb (Client.id c) id); simpl; rewrite ?Hc; auto.
Qed.

(** X22: setting the folder of the selected client starts the sync.
    With the drive connected and a key that is not blank, the handler
    followed by the effect it triggers leaves the timer armed and one
    more cycle in flight, waiting for the listing of the url just set,
    with [isSyncing] set and [syncError] [null]. *)
Theorem set_folder_then_effect_lists_it :
  forall w sel url,
    selectedClient (appState w) = Some sel ->
    url <> "" ->
    isGoogleDriveConnected (appState w) = true ->
    allWhiteSpace (fileSearchApiKey (appState w)) = false ->
    let w' := run w [SetFolderUrl (Client.id sel) url; RunEffect] in
    let sel' := Client.withFolderUrl sel url in
    let r := mkRender (Some sel') true (fileSearchApiKey (appState w)) in
    interval w' = Some r /\
    inflight w' =
      (inflight w ++
       [mkCycle r (AwaitGetFilesFromFolder url
                     (afterFetch sel' (fileSearchApiKey (appState w))))])%list /\
    selectedClient (appState w') = Some sel' /\
    isSyncing (appState w') = true /\
    syncError (appState w') = None.
Proof.
  intros w sel url Hsel Hne Hconn Hkey w' sel' r.
  set (s1 := handleSetFolderUrl (Client.id sel) url (appState w)).
  assert (Hsel1 : selectedClient s1 = Some sel').
  { unfold selectedClient in *. subst s1. simpl.
    destruct (selectedClientId (appState w)) as [id|]; [|discriminate].
    rewrite find_set_folder, Hsel. simpl. now rewrite String.eqb_refl. }
  assert (Hr : render s1 = r).
  { unfold render. rewrite Hsel1. subst s1 r. simpl. now rewrite Hconn. }
  assert (Hact : activation r = Some (sel', url)).
  { apply activation_spec. subst r. simpl. repeat split; auto.
    intro Hblank. apply trim_empty_iff in Hblank. congruence. }
  subst w'. cbn [run fold_left step]. unfold onApp. fold s1.
  unfold runEffect. cbn [appState inflight]. rewrite Hr.
  change (r_selectedClient r) with (Some sel').
  cbv iota beta.
  change (Client.googleDriveFolderUrl sel') with (Some url).
  cbv iota beta.
  apply truthy_true_iff in Hne. rewrite Hne.
  unfold callSyncAndPoll. rewrite (syncAndPoll_active _ _ _ Hact).
  cbn [advance appState interval inflight awaiting r_fileSearchApiKey r].
  split; [reflexivity|]. split; [reflexivity|]. split; [|split; reflexivity].
  unfold selectedClient in *. simpl in *. exact Hsel1.
Qed.

Lemma set_folder_then_effect_lists_it_witness :
  let w := mkWorld (handleSelectClient "client_2000" More.twoClients) None [] in
  let w' := run w [SetFolderUrl "client_2000" "https://drive.example/bolt"; RunEffect] in
  map (fun cy => suspended cy) (inflight w') =
    [AwaitGetFilesFromFolder "https://drive.example/bolt"
       (afterFetch (Client.withFolderUrl More.bolt "https://drive.example/bolt") "secret")].
Proof.
  assert (Hne : "https://drive.example/bolt" <> "") by discriminate.
  destruct (set_folder_then_effect_lists_it
              (mkWorld (handleSelectClient "client_2000" More.twoClients) None [])
              More.bolt "https://drive.example/bolt" eq_refl Hne eq_refl eq_refl)
    as (_ & Hflight & _).
  apply (f_equal (map (fun cy => suspended cy))) in Hflight. exact Hflight.
Defined.

(** X23: selecting an id that no client has leaves no client selected:
    a search then returns the fixed text without calling the index, and
    the effect stops the timer and starts no cycle. *)
Theorem select_unknown_id :
  forall w id query,
    Forall (fun c => Client.id c <> id) (clients (appState w)) ->
    let w' := step w (SelectClient id) in
    selectedClient (appState w') = None /\
    handleSearch (render (appState w')) query =
      Return (Fulfilled "No client selected.") /\
    runEffect w' = mkWorld (appState w') None (inflight w).
Proof.
  intros w id query Habsent w'.
  assert (Hnone : selectedClient (appState w') = None).
  { subst w'. unfold selectedClient. simpl.
    induction Habsent as [|c rest Hc _ IH]; simpl; [reflexivity|].
    apply String.eqb_neq in Hc. now rewrite Hc. }
  split; [exact Hnone|]. split.
  - unfold handleSearch, render. cbn [r_selectedClient]. now rewrite Hnone.
  - unfold runEffect, render. cbn [r_selectedClient]. now rewrite Hnone.
Qed.

Lemma select_unknown_id_witness :
  let w' := step (mkWorld More.twoClients (Some Sample.acmeRender) [])
                 (SelectClient "client_3000") in
  selectedClient (appState w') = None /\
  interval (runEffect w') = None.
Proof.
  destruct (select_unknown_id (mkWorld More.twoClients (Some Sample.acmeRender) [])
              "client_3000" "invoices") as (Hnone & _ & Heffect).
  - repeat constructor; discriminate.
  - split; [exact Hnone|]. cbv zeta. now rewrite Heffect.
Defined.

(** ** The listing is compared with what the closure captured *)

Lemma nth_error_replaced : forall {X} (l : list X) i (x y : X),
  nth_error l i = Some y ->
  nth_error (firstn i l ++ [x] ++ skipn (S i) l) i = Some x.
Proof.
  intros X l. induction l as [|z l IH]; intros [|i] x y Hi; simpl in *;
    try discriminate; [reflexivity|].
  now apply (IH i x y).
Qed.

Lemma length_replaced : forall {X} (l : list X) i (x y : X),
  nth_error l i = Some y ->
  length (firstn i l ++ [x] ++ skipn (S i) l) = length l.
Proof.
  intros X l. induction l as [|z l IH]; intros [|i] x y Hi; simpl in *;
    try discriminate; [reflexivity|].
  f_equal. now apply (IH i x y).
Qed.

(** X24: when the drive listing of a cycle fulfils, it is compared with
    the files the closure captured when the cycle started, not with the
    files the client has by then.  If the fingerprints are equal the
    cycle ends and no client changes; if they differ, the clients with
    the id of the captured client get the placeholders, whatever client
    is selected, and the cycle stays in flight at its place, waiting
    for the index. *)
Theorem listing_compared_with_captured_files :
  forall w i cy sel url resume driveFiles,
    reachable w ->
    nth_error (inflight w) i = Some cy ->
    r_selectedClient (startedFor cy) = Some sel ->
    suspended cy = AwaitGetFilesFromFolder url resume ->
    let w' := step w (FetchSettles i (Fulfilled driveFiles)) in
    (changeDetected (Client.files sel) driveFiles = false ->
       clients (appState w') = clients (appState w) /\
       syncError (appState w') = syncError (appState w) /\
       inflight w' = (firstn i (inflight w) ++ skipn (S i) (inflight w))%list) /\
    (changeDetected (Client.files sel) driveFiles = true ->
       clients (appState w') = markSyncing sel driveFiles (clients (appState w)) /\
       nth_error (inflight w') i =
         Some (mkCycle (startedFor cy)
                 (AwaitSyncClientFiles sel driveFiles
                    (r_fileSearchApiKey (startedFor cy)) (afterSync sel))) /\
       length (inflight w') = length (inflight w)).
Proof.
  intros w i cy sel url resume driveFiles Hw Hcy Hsel Hsusp w'.
  assert (Hshape : cycleShape cy).
  { eapply Forall_forall; [apply inflight_shape; exact Hw | eapply nth_error_In; exact Hcy]. }
  destruct Hshape as [r sel' url' Hact | r sel' url' driveFiles' Hact Hchanged];
    simpl in Hsusp; [|discriminate].
  injection Hsusp as <- <-. simpl in Hsel.
  apply activation_spec in Hact as (Hsel' & _).
  assert (sel' = sel) by congruence. subst sel'.
  subst w'. cbn [step]. rewrite Hcy. cbn [suspended]. unfold resumeCycle.
  cbn [startedFor]. split; intro Hcmp.
  - rewrite (afterFetch_unchanged _ _ _ _ Hcmp). simpl. auto.
  - rewrite (afterFetch_changed _ _ _ _ Hcmp). cbn [appState inflight awaiting].
    split; [reflexivity|]. split.
    + eapply nth_error_replaced. exact Hcy.
    + eapply length_replaced. exact Hcy.
Qed.

Lemma listing_compared_with_captured_files_witness :
  let w := run initialWorld Sample.switchedAway in
  let w' := step w (FetchSettles 1 (Fulfilled [Sample.report; Sample.notes])) in
  selectedClientId (appState w) = Some "client_2000" /\
  map Client.files (clients (appState w')) =
    [[placeholder Sample.report; placeholder Sample.notes]; []].
Proof.
  split; [reflexivity|].
  destruct (listing_compared_with_captured_files
              (run initialWorld Sample.switchedAway) 1
              (mkCycle
                 (mkRender (Some (Client.withFiles Sample.acme [placeholder Sample.report]))
                    true "secret")
                 (AwaitGetFilesFromFolder "https://drive.example/acme"
                    (afterFetch (Client.withFiles Sample.acme [placeholder Sample.report])
                       "secret")))
              (Client.withFiles Sample.acme [placeholder Sample.report])
              "https://drive.example/acme"
              (afterFetch (Client.withFiles Sample.acme [placeholder Sample.report]) "secret")
              [Sample.report; Sample.notes]) as [_ Hchanged].
  - apply reachable_run. constructor.
  - reflexivity.
  - reflexivity.
  - reflexivity.
  - destruct (Hchanged eq_refl) as (Hclients & _).
    cbv zeta. rewrite Hclients. reflexivity.
Defined.

(** ** Reordered listings *)

(** Reordering is detected when the ids are pairwise distinct and have
    one common length, whatever the contents: the first id of each
    fingerprint can then be read off, and it names the file. *)
Lemma fingerprint_distinct_ids_inj :
  forall {A B} `{FileLike A} `{FileLike B} n (stored : list A) (remote : list B),
    Forall (fun f => String.length (fileId f) = n) stored ->
    NoDup (map fileId stored) ->
    Permutation (map idContent stored) (map idContent remote) ->
    fingerprint stored = fingerprint remote ->
    map idContent stored = map idContent remote.
Proof.
  intros A B HA HB n. induction stored as [|f fs IH]; intros remote Hlen Hids Hperm Hprint.
  - apply Permutation_nil in Hperm. now rewrite Hperm.
  - destruct remote as [|g gs].
    + apply Permutation_sym, Permutation_nil in Hperm. discriminate.
    + inversion Hlen as [|? ? Hf Hfs]; subst.
      inversion Hids as [|? ? Hfresh Hrest]; subst.
      assert (Hg : In (idContent g) (map idContent (f :: fs))).
      { eapply Permutation_in; [apply Permutation_sym; exact Hperm | now left]. }
      assert (Hsame : idContent f = idContent g).
      { destruct Hg as [Hg | Hg]; [exact Hg|]. exfalso.
        apply in_map_iff in Hg as (f' & Hpair & Hin).
        injection Hpair as Hid' _.
        assert (Hlen' : String.length (fileId f') = String.length (fileId f)).
        { rewrite Forall_forall in Hfs. now rewrite (Hfs f' Hin). }
        rewrite !fingerprint_cons, !append_assoc in Hprint.
        apply append_same_length in Hprint as [Hid _]; [|congruence].
        apply Hfresh. apply in_map_iff. exists f'. split; [congruence | exact Hin]. }
      simpl. rewrite Hsame. f_equal. apply IH; auto.
      * simpl in Hperm. rewrite Hsame in Hperm.
        now apply Permutation_cons_inv in Hperm.
      * rewrite !fingerprint_cons in Hprint. injection Hsame as Hid Hcontent.
        rewrite Hid, Hcontent in Hprint. now apply append_inj_l in Hprint.
Qed.

(** X25: when the ids of the stored files are pairwise distinct and
    have one common length, whatever the contents, a listing of the
    same (id, content) pairs in another order has another fingerprint
    and is detected as a change. *)
Theorem reorder_detected_for_distinct_ids :
  forall (stored : list SyncedFile.t) (remote : list DriveFile.t) n,
    Forall (fun f => String.length (SyncedFile.id f) = n) stored ->
    NoDup (map SyncedFile.id stored) ->
    Permutation (map idContent stored) (map idContent remote) ->
    map idContent stored <> map idContent remote ->
    fingerprint stored <> fingerprint remote /\
    changeDetected stored remote = true.
Proof.
  intros stored remote n Hlen Hids Hperm Hdiff.
  assert (Hprint : fingerprint stored <> fingerprint remote).
  { intro Heq. apply Hdiff.
    exact (fingerprint_distinct_ids_inj n stored remote Hlen Hids Hperm Heq). }
  split; [exact Hprint|]. now apply changeDetected_true_iff.
Qed.

Lemma reorder_detected_for_distinct_ids_witness :
  fingerprint [SyncedFile.mk "f1" "alpha" "First." indexed;
               SyncedFile.mk "f2" "be" "Second." indexed] = "f1alphaf2be" /\
  changeDetected [SyncedFile.mk "f1" "alpha" "First." indexed;
                  SyncedFile.mk "f2" "be" "Second." indexed]
                 [DriveFile.mk "f2" "be"; DriveFile.mk "f1" "alpha"] = true.
Proof.
  split; [reflexivity|].
  apply (reorder_detected_for_distinct_ids
           [SyncedFile.mk "f1" "alpha" "First." indexed;
            SyncedFile.mk "f2" "be" "Second." indexed]
           [DriveFile.mk "f2" "be"; DriveFile.mk "f1" "alpha"] 2).
  - repeat constructor.
  - repeat constructor; simpl; intuition discriminate.
  - apply perm_swap.
  - discriminate.
Defined.
